(** * Settings resolution of meltano's [SettingsService]

    A shallow embedding of [src/meltano/core/settings_service.py]: the
    values that flow through the service, the metadata envelopes, the
    definition catalog with its cache, the read path
    ([get_with_metadata], [config_with_metadata], [as_env]) and the write
    path ([set_with_metadata], [unset], [reset]). *)

From Stdlib Require Import ZArith String List Bool Lia.
From stdpp Require Import base strings gmap list fin_maps.

Open Scope string_scope.
Open Scope list_scope.
Set Warnings "-register-all".

(** ** Python values *)

(** The values a setting can hold: what YAML, the environment and the
    definitions' casters produce. *)
Inductive Value : Type :=
| VNone
| VBool (b : bool)
| VInt (z : Z)
| VStr (s : string)
| VList (l : list Value)
| VDict (d : list (string * Value)).

(** An insertion-ordered Python [dict] with string keys. *)
Definition Dict (A : Type) : Type := list (string * A).

Fixpoint dict_get {A} (k : string) (d : Dict A) : option A :=
  match d with
  | [] => None
  | (k', v) :: r => if String.eqb k k' then Some v else dict_get k r
  end.

Definition dict_mem {A} (k : string) (d : Dict A) : bool :=
  match dict_get k d with Some _ => true | None => false end.

(** [d[k] = v]: an existing key keeps its position, a new one goes last. *)
Fixpoint dict_set {A} (k : string) (v : A) (d : Dict A) : Dict A :=
  match d with
  | [] => [(k, v)]
  | (k', v') :: r =>
      if String.eqb k k' then (k', v) :: r else (k', v') :: dict_set k v r
  end.

Definition bool_as_int (b : bool) : Z := if b then 1%Z else 0%Z.

(** Python's [==] on these values: [bool] is a subtype of [int], lists
    compare element-wise, dicts compare key-wise whatever their order. *)
Fixpoint py_eq (a b : Value) {struct a} : bool :=
  match a, b with
  | VNone, VNone => true
  | VBool x, VBool y => Bool.eqb x y
  | VBool x, VInt y => Z.eqb (bool_as_int x) y
  | VInt x, VBool y => Z.eqb x (bool_as_int y)
  | VInt x, VInt y => Z.eqb x y
  | VStr x, VStr y => String.eqb x y
  | VList l1, VList l2 =>
      (fix go (l1 l2 : list Value) {struct l1} : bool :=
         match l1, l2 with
         | [], [] => true
         | x :: xs, y :: ys => py_eq x y && go xs ys
         | _, _ => false
         end) l1 l2
  | VDict d1, VDict d2 =>
      Nat.eqb (length d1) (length d2)
      && (fix go (d1 : list (string * Value)) {struct d1} : bool :=
            match d1 with
            | [] => true
            | (k, v) :: r =>
                match dict_get k d2 with
                | Some v' => py_eq v v'
                | None => false
                end && go r
            end) d1
  | _, _ => false
  end.

(** Python's truth value: [None], [False], [0], the empty string, list
    and dict are false. *)
Definition truthy (v : Value) : bool :=
  match v with
  | VNone => false
  | VBool b => b
  | VInt z => negb (Z.eqb z 0)
  | VStr s => negb (String.eqb s "")
  | VList l => match l with [] => false | _ => true end
  | VDict d => match d with [] => false | _ => true end
  end.

(** sentinel value to use to prevent leaking sensitive data *)
Definition REDACTED_VALUE : string := "(redacted)".

Definition is_sentinel (v : Value) : bool := py_eq v (VStr REDACTED_VALUE).

(** [SettingsService.unredact]:
    [{k: v for k, v in values.items() if v != REDACTED_VALUE}]. *)
Definition unredact (values : Dict Value) : Dict Value :=
  List.filter (fun kv => negb (py_eq (snd kv) (VStr REDACTED_VALUE))) values.

(** ** Definitions, stores and metadata *)

(** The part of [SettingDefinition] (setting_definition.py) that the
    service reads as plain attributes. *)
Module SettingDefinition.
Record t : Type := {
  name : string;
  aliases : list string;
  kind : string;
  is_extra : bool;
  is_redacted : bool
}.
End SettingDefinition.

(** What [SettingDefinition.env_vars] yields: a variable name and whether
    it is the negated form of a boolean. *)
Module EnvVar.
Record t : Type := { key : string; negated : bool }.
End EnvVar.

(** Modelled from the spec: the enumeration [SettingValueStore] of
    settings_store.py is missing. The spec names the concrete kinds
    "explicit override, process environment, dotenv file, YAML project
    config, database" in precedence order, the source names [DEFAULT]
    and [AUTO]. *)
Inductive SettingValueStore : Type :=
| CONFIG_OVERRIDE | ENV | DOTENV | MELTANO_YML | DB | DEFAULT | AUTO.

Definition store_eqb (a b : SettingValueStore) : bool :=
  match a, b with
  | CONFIG_OVERRIDE, CONFIG_OVERRIDE | ENV, ENV | DOTENV, DOTENV
  | MELTANO_YML, MELTANO_YML | DB, DB | DEFAULT, DEFAULT | AUTO, AUTO => true
  | _, _ => false
  end.

(** Modelled from the spec: "each concrete kind owns a precedence rank",
    tried "in ascending precedence order"; the lower rank wins. *)
Definition rank (s : SettingValueStore) : nat :=
  match s with
  | CONFIG_OVERRIDE => 0 | ENV => 1 | DOTENV => 2 | MELTANO_YML => 3
  | DB => 4 | DEFAULT => 5 | AUTO => 6
  end.

(** Modelled from the spec: [a.overrides(b)] of the missing enumeration,
    "higher precedence than". *)
Definition overrides (a b : SettingValueStore) : bool :=
  Nat.ltb (rank a) (rank b).

(** What a metadata envelope can hold under a key. *)
Inductive meta_val : Type :=
| MStr (s : string)
| MBool (b : bool)
| MVal (v : Value)
| MStore (s : SettingValueStore)
| MSetting (d : option SettingDefinition.t)
| MPath (p : list string).

Abbreviation Metadata := (gmap string meta_val).

(** [m.update(u)]: the keys of [u] win. *)
Definition meta_update (m u : Metadata) : Metadata := u ∪ m.

(** A store manager object: the store it is bound to and its bulk flag. *)
Record Manager : Type := { mgr_store : SettingValueStore; mgr_bulk : bool }.

(** [store.manager(self, bulk=...)]. *)
Definition manager (s : SettingValueStore) (bulk : bool) : Manager :=
  {| mgr_store := s; mgr_bulk := bulk |}.

(** ** The service object *)

(** References to the dicts held in [env_override] and [config_override]. *)
Definition loc : Type := nat.

Abbreviation Heap := (gmap nat (gmap string string)).

(** The attributes [__init__] sets that the methods of this file read.
    [project] and [config_service] are opaque to them and left out. *)
Record SettingsService : Type := {
  show_hidden : bool;
  env_override : loc;
  config_override : loc;
  _setting_defs : option (list SettingDefinition.t)
}.

(** The two [{}] of the signature of [__init__] are evaluated once, when
    the class body runs: every call that omits the argument receives the
    same dict object. *)
Definition default_env_override : loc := 0.
Definition default_config_override : loc := 1.

Definition initial_heap : Heap :=
  <[default_config_override := ∅]> (<[default_env_override := ∅]> ∅).

(** [SettingsService.__init__(project, config_service, show_hidden=True,
    env_override={}, config_override={})]. *)
Definition __init__ (show_hidden : option bool)
    (env_override config_override : option loc) : SettingsService :=
  {| show_hidden := default true show_hidden;
     env_override := default default_env_override env_override;
     config_override := default default_config_override config_override;
     _setting_defs := None |}.

(** [obj.env_override[k] = v] run by a holder of the instance. *)
Definition env_override_setitem (self : SettingsService) (k v : string)
    (h : Heap) : Heap :=
  match h !! env_override self with
  | Some d => <[env_override self := <[k := v]> d]> h
  | None => h
  end.

Definition config_override_setitem (self : SettingsService) (k v : string)
    (h : Heap) : Heap :=
  match h !! config_override self with
  | Some d => <[config_override self := <[k := v]> d]> h
  | None => h
  end.

(** The [env] property: [{**os.environ, **self.env_override}]. *)
Definition env (os_environ : gmap string string) (h : Heap)
    (self : SettingsService) : gmap string string :=
  default ∅ (h !! env_override self) ∪ os_environ.

(** ** Exceptions and the state of a call *)

Inductive exn : Type :=
| SettingMissingError (name : string)
| StoreNotSupportedError
| RecursionError
| KeyError (k : string)
| AttributeError.

Inductive Res (A : Type) : Type :=
| Ok (a : A)
| Raise (e : exn).
Arguments Ok {A} a.
Arguments Raise {A} e.

(** What a call can read and change: the instance and the backing stores. *)
Record World (Backend : Type) : Type := {
  self : SettingsService;
  backend : Backend
}.
Arguments self {Backend} w.
Arguments backend {Backend} w.

(** A method body: it ends in a result or an exception, and the state it
    leaves is kept in both cases. *)
Definition M (Backend A : Type) : Type :=
  World Backend -> Res A * World Backend.

Definition ret {B A} (a : A) : M B A := fun w => (Ok a, w).

Definition raise {B A} (e : exn) : M B A := fun w => (Raise e, w).

Definition bind {B A C} (m : M B A) (k : A -> M B C) : M B C :=
  fun w =>
    match m w with
    | (Ok a, w') => k a w'
    | (Raise e, w') => (Raise e, w')
    end.

Definition lift {B A} (r : Res A) : M B A := fun w => (r, w).

Notation "'let*' x ':=' m 'in' k" := (bind m (fun x => k))
  (at level 10, x pattern, m at level 100, k at level 200).

(** [try: body except SettingMissingError: handler]. *)
Definition catch_missing {B A} (m : M B A) (h : M B A) : M B A :=
  fun w =>
    match m w with
    | (Raise (SettingMissingError _), w') => h w'
    | r => r
    end.

(** ** Collaborators outside this file *)

(** The methods of [SettingDefinition] the service calls; their code is
    in setting_definition.py. *)
Class SettingDefinitionOps : Type := {
  cast_value : SettingDefinition.t -> Value -> Value;
  stringify_value : SettingDefinition.t -> Value -> string;
  env_vars : SettingDefinition.t -> list string -> list EnvVar.t;
  from_missing :
    list SettingDefinition.t -> Dict Value -> list SettingDefinition.t
}.

(** The abstract members every variant of the service supplies.
    [flat_meltano_yml_config] stands for
    [flatten(self._meltano_yml_config, "dot")]. *)
Class ServiceVariant (Backend : Type) : Type := {
  _env_prefixes : list string;
  _generic_env_prefix : option string;
  _definitions : Backend -> list SettingDefinition.t;
  flat_meltano_yml_config : Backend -> Dict Value
}.

(** The manager contract of settings_store.py, one behaviour per manager
    object. A read leaves the stores as they are; a write returns the
    stores it leaves. *)
Class StoreManagers (Backend : Type) : Type := {
  manager_get :
    Manager -> World Backend -> string -> option SettingDefinition.t ->
    gmap string string -> Res (Value * Metadata);
  manager_set :
    Manager -> World Backend -> string -> list string -> Value ->
    option SettingDefinition.t -> Res Metadata * Backend;
  manager_unset :
    Manager -> World Backend -> string -> list string ->
    option SettingDefinition.t -> Res Metadata * Backend;
  manager_reset : Manager -> World Backend -> Res Metadata * Backend
}.

(** ** Strings *)

(** [s[n:]]. *)
Fixpoint string_drop (n : nat) (s : string) : string :=
  match n, s with
  | O, _ => s
  | S n', String _ r => string_drop n' r
  | S _, EmptyString => EmptyString
  end.

Definition startswith (s p : string) : bool := String.prefix p s.

Definition str_truthy (s : option string) : bool :=
  match s with
  | Some s => negb (String.eqb s "")
  | None => false
  end.

(** ** The definition catalog *)

Section Catalog.
Context {Backend : Type} `{SettingDefinitionOps} `{ServiceVariant Backend}.

(** The list the first call of [definitions] builds. *)
Definition build_setting_defs (w : World Backend) : list SettingDefinition.t :=
  List.filter
    (fun s => negb (String.eqb (SettingDefinition.kind s) "hidden")
              || show_hidden (self w))
    (_definitions (backend w))
  ++ from_missing (_definitions (backend w))
       (flat_meltano_yml_config (backend w)).

Definition set_setting_defs (l : list SettingDefinition.t)
    (w : World Backend) : World Backend :=
  {| self := {| show_hidden := show_hidden (self w);
                env_override := env_override (self w);
                config_override := config_override (self w);
                _setting_defs := Some l |};
     backend := backend w |}.

(** [definitions(self, extras=None)]. *)
Definition definitions (extras : option bool)
    : M Backend (list SettingDefinition.t) :=
  fun w =>
    let w' :=
      match _setting_defs (self w) with
      | None => set_setting_defs (build_setting_defs w) w
      | Some _ => w
      end in
    let setting_defs := default [] (_setting_defs (self w')) in
    match extras with
    | Some e =>
        (Ok (List.filter
               (fun s => (Bool.eqb e true && SettingDefinition.is_extra s)
                         || (Bool.eqb e false
                             && negb (SettingDefinition.is_extra s)))
               setting_defs), w')
    | None => (Ok setting_defs, w')
    end.

Definition matches (name : string) (s : SettingDefinition.t) : bool :=
  String.eqb (SettingDefinition.name s) name
  || existsb (String.eqb name) (SettingDefinition.aliases s).

(** [find_setting(self, name)]: the first match of the generator, or
    [SettingMissingError] when it is exhausted. *)
Definition find_setting (name : string) : M Backend SettingDefinition.t :=
  let* defs := definitions None in
  match List.find (matches name) defs with
  | Some s => ret s
  | None => raise (SettingMissingError name)
  end.

(** [setting_env_vars(self, setting_def, include_generic=False)]. *)
Definition setting_env_vars (setting_def : SettingDefinition.t)
    (include_generic : bool) : list EnvVar.t :=
  let prefixes :=
    _env_prefixes
    ++ (if include_generic && str_truthy _generic_env_prefix
        then match _generic_env_prefix with Some g => [g] | None => [] end
        else []) in
  env_vars setting_def prefixes.
End Catalog.

(** ** The read path *)

Section ReadPath.
Context {Backend : Type} `{SettingDefinitionOps} `{ServiceVariant Backend}
        `{StoreManagers Backend}.

(** The signature of [get_with_metadata] once its recursion depth is
    fixed: name, [redacted], [source], [source_manager], [setting_def]. *)
Definition getter : Type :=
  string -> bool -> SettingValueStore -> option Manager ->
  option SettingDefinition.t -> M Backend (Value * Metadata).

(** [source_manager.bulk = True]. The manager is an object the caller
    still holds: after a call of [config_with_metadata] with a manager, the
    caller's manager is the one with the flag set. *)
Definition set_bulk (m : Manager) : Manager :=
  {| mgr_store := mgr_store m; mgr_bulk := true |}.

(** The [for setting_def in self.definitions(extras=extras)] loop of
    [config_with_metadata]. *)
Fixpoint config_loop (gwm : getter) (prefix : option string)
    (redacted : bool) (source : SettingValueStore)
    (source_manager : Manager) (defs : list SettingDefinition.t)
    (config : Dict Metadata) : M Backend (Dict Metadata) :=
  match defs with
  | [] => ret config
  | setting_def :: rest =>
      if str_truthy prefix
         && negb (startswith (SettingDefinition.name setting_def)
                    (default "" prefix))
      then config_loop gwm prefix redacted source source_manager rest config
      else
        let* (value, metadata) :=
          gwm (SettingDefinition.name setting_def) redacted source
              (Some source_manager) (Some setting_def) in
        let name := SettingDefinition.name setting_def in
        let name :=
          if str_truthy prefix
          then string_drop (String.length (default "" prefix)) name
          else name in
        config_loop gwm prefix redacted source source_manager rest
          (dict_set name (<["value" := MVal value]> metadata) config)
  end.

(** [config_with_metadata(self, prefix, extras, source, source_manager,
    redacted=...)] over a given getter. *)
Definition config_with_metadata_body (gwm : getter) (prefix : option string)
    (extras : option bool) (redacted : bool) (source : SettingValueStore)
    (source_manager : option Manager) : M Backend (Dict Metadata) :=
  let source_manager :=
    match source_manager with
    | Some m => set_bulk m
    | None => manager source true
    end in
  let* defs := definitions extras in
  config_loop gwm prefix redacted source source_manager defs [].

(** The inner loop of [as_env]: one entry per variable not negated. *)
Fixpoint env_vars_loop (vars : list EnvVar.t) (value : string)
    (env : gmap string string) : gmap string string :=
  match vars with
  | [] => env
  | env_var :: rest =>
      if EnvVar.negated env_var then env_vars_loop rest value env
      else env_vars_loop rest value (<[EnvVar.key env_var := value]> env)
  end.

(** The [for key, config in full_config.items()] loop of [as_env]. *)
Fixpoint as_env_loop (items : Dict Metadata) (env : gmap string string)
    : Res (gmap string string) :=
  match items with
  | [] => Ok env
  | (key, config) :: rest =>
      match config !! "value" with
      | None => Raise (KeyError "value")
      | Some (MVal VNone) => as_env_loop rest env
      | Some (MVal value) =>
          match config !! "setting" with
          | None => Raise (KeyError "setting")
          | Some (MSetting (Some setting_def)) =>
              as_env_loop rest
                (env_vars_loop (setting_env_vars setting_def true)
                   (stringify_value setting_def value) env)
          | Some _ => Raise AttributeError
          end
      | Some _ => Raise AttributeError
      end
  end.

Definition as_env_body (gwm : getter) (prefix : option string)
    (extras : option bool) (redacted : bool) (source : SettingValueStore)
    (source_manager : option Manager) : M Backend (gmap string string) :=
  let* full_config :=
    config_with_metadata_body gwm prefix extras redacted source
      source_manager in
  lift (as_env_loop full_config ∅).

(** The [for nested_key, config_metadata in flat_config_metadata.items()]
    loop of the object assembly. *)
Fixpoint nested_loop (items : Dict Metadata) (object_value : Dict Value)
    (object_source : SettingValueStore)
    : Res (Dict Value * SettingValueStore) :=
  match items with
  | [] => Ok (object_value, object_source)
  | (nested_key, config_metadata) :: rest =>
      if dict_mem nested_key object_value
      then nested_loop rest object_value object_source
      else
        match config_metadata !! "value" with
        | None => Raise (KeyError "value")
        | Some (MVal v) =>
            let object_value := dict_set nested_key v object_value in
            match config_metadata !! "source" with
            | None => Raise (KeyError "source")
            | Some (MStore nested_source) =>
                nested_loop rest object_value
                  (if overrides nested_source object_source
                   then nested_source else object_source)
            | Some _ => Raise AttributeError
            end
        | Some _ => Raise AttributeError
        end
  end.

(** The [for setting_key in [setting_def.name, *setting_def.aliases]]
    loop; [cwm] is [config_with_metadata] at a prefix. *)
Fixpoint object_loop (cwm : option string -> M Backend (Dict Metadata))
    (keys : list string) (object_value : Dict Value)
    (object_source : SettingValueStore)
    : M Backend (Dict Value * SettingValueStore) :=
  match keys with
  | [] => ret (object_value, object_source)
  | setting_key :: rest =>
      let* flat_config_metadata :=
        cwm (Some (String.append setting_key ".")) in
      let* (object_value, object_source) :=
        lift (nested_loop flat_config_metadata object_value object_source) in
      object_loop cwm rest object_value object_source
  end.

Definition source_is_default (m : Metadata) : bool :=
  match m !! "source" with
  | Some (MStore DEFAULT) => true
  | _ => false
  end.

(** Lines 202-227: the value and metadata after the object assembly. *)
Definition assemble_object (cwm : option string -> M Backend (Dict Metadata))
    (setting_def : SettingDefinition.t) (value : Value) (metadata : Metadata)
    : M Backend (Value * Metadata) :=
  if String.eqb (SettingDefinition.kind setting_def) "object"
     && source_is_default metadata
  then
    let* (object_value, object_source) :=
      object_loop cwm
        (SettingDefinition.name setting_def
         :: SettingDefinition.aliases setting_def) [] DEFAULT in
    match object_value with
    | [] => ret (value, metadata)
    | _ :: _ =>
        ret (VDict object_value, <["source" := MStore object_source]> metadata)
    end
  else ret (value, metadata).

(** Lines 229-232: the cast. *)
Definition cast_step (setting_def : SettingDefinition.t) (value : Value)
    (metadata : Metadata) : Value * Metadata :=
  let cast := cast_value setting_def value in
  if negb (py_eq cast value)
  then (cast, <["uncast_value" := MVal value]> metadata)
  else (value, metadata).

(** Lines 236-238: the redaction. *)
Definition redact_step (setting_def : SettingDefinition.t) (redacted : bool)
    (value : Value) (metadata : Metadata) : Value * Metadata :=
  if redacted && truthy value && SettingDefinition.is_redacted setting_def
  then (VStr REDACTED_VALUE, <["redacted" := MBool true]> metadata)
  else (value, metadata).

Definition cast_then_redact (setting_def : SettingDefinition.t)
    (redacted : bool) (value : Value) (metadata : Metadata)
    : Value * Metadata :=
  let '(value, metadata) := cast_step setting_def value metadata in
  redact_step setting_def redacted value metadata.

(** Lines 174-177: the definition passed in, or the one found, or none. *)
Definition resolve_setting_def (name : string)
    (setting_def : option SettingDefinition.t)
    : M Backend (option SettingDefinition.t) :=
  match setting_def with
  | Some d => ret (Some d)
  | None =>
      catch_missing (let* d := find_setting name in ret (Some d)) (ret None)
  end.

(** [get_with_metadata(self, name, redacted=False, source=AUTO,
    source_manager=None, setting_def=None)]. [fuel] bounds the depth of
    the calls through [as_env] and [config_with_metadata]; running out
    is Python's [RecursionError]. *)
Fixpoint get_with_metadata (fuel : nat) (name : string) (redacted : bool)
    (source : SettingValueStore) (source_manager : option Manager)
    (setting_def : option SettingDefinition.t) {struct fuel}
    : M Backend (Value * Metadata) :=
  match fuel with
  | O => raise RecursionError
  | S fuel' =>
      let* setting_def := resolve_setting_def name setting_def in
      let name :=
        match setting_def with
        | Some d => SettingDefinition.name d
        | None => name
        end in
      let metadata : Metadata :=
        <["name" := MStr name]>
          (<["source" := MStore source]>
             (<["setting" := MSetting setting_def]> ∅)) in
      let* (expandible_env, source_manager) :=
        match setting_def with
        | Some d =>
            if SettingDefinition.is_extra d
            then
              let* expandible_env :=
                as_env_body (get_with_metadata fuel') None (Some false)
                  redacted source source_manager in
              ret (expandible_env, option_map set_bulk source_manager)
            else ret (∅, source_manager)
        | None => ret (∅, source_manager)
        end in
      let manager := default (manager source false) source_manager in
      let* (value, get_metadata) :=
        (fun w => (manager_get manager w name setting_def expandible_env, w)) in
      let metadata := meta_update metadata get_metadata in
      match setting_def with
      | Some d =>
          let* (value, metadata) :=
            assemble_object
              (fun prefix =>
                 config_with_metadata_body (get_with_metadata fuel') prefix
                   None redacted source source_manager)
              d value metadata in
          ret (cast_then_redact d redacted value metadata)
      | None => ret (value, metadata)
      end
  end.

Definition config_with_metadata (fuel : nat) (prefix : option string)
    (extras : option bool) (redacted : bool) (source : SettingValueStore)
    (source_manager : option Manager) : M Backend (Dict Metadata) :=
  config_with_metadata_body (get_with_metadata fuel) prefix extras redacted
    source source_manager.

(** [as_env(self, prefix, extras, source, source_manager, redacted=...)]. *)
Definition as_env (fuel : nat) (prefix : option string)
    (extras : option bool) (redacted : bool) (source : SettingValueStore)
    (source_manager : option Manager) : M Backend (gmap string string) :=
  as_env_body (get_with_metadata fuel) prefix extras redacted source
    source_manager.
End ReadPath.

(** ** The write path *)

(** A path argument: a single name or a list of segments. *)
Inductive PathArg : Type :=
| PathStr (s : string)
| PathList (l : list string).

(** [if isinstance(path, str): path = [path]]. *)
Definition path_segments (path : PathArg) : list string :=
  match path with
  | PathStr s => [s]
  | PathList l => l
  end.

Section WritePath.
Context {Backend : Type} `{SettingDefinitionOps} `{ServiceVariant Backend}
        `{StoreManagers Backend}.

(** A write of a manager: the instance stays, the stores are the ones
    the manager leaves. *)
Definition manager_write (f : World Backend -> Res Metadata * Backend)
    : M Backend Metadata :=
  fun w =>
    let '(r, b) := f w in
    (r, {| self := self w; backend := b |}).

(** [set_with_metadata(self, path, value, store=AUTO)]; [store] is
    [None] when the caller leaves the keyword out. *)
Definition set_with_metadata (path : PathArg) (value : Value)
    (store : option SettingValueStore) : M Backend (Value * Metadata) :=
  let store := default AUTO store in
  let path := path_segments path in
  let name := String.concat "." path in
  let* setting_def := resolve_setting_def name None in
  let metadata : Metadata :=
    <["name" := MStr name]>
      (<["path" := MPath path]>
         (<["store" := MStore store]>
            (<["setting" := MSetting setting_def]> ∅))) in
  if py_eq value (VStr REDACTED_VALUE)
  then ret (VNone, <["redacted" := MBool true]> metadata)
  else
    let '(value, metadata) :=
      match setting_def with
      | Some d => cast_step d value metadata
      | None => (value, metadata)
      end in
    let manager := manager store false in
    let* set_metadata :=
      manager_write
        (fun w => manager_set manager w name path value setting_def) in
    ret (value, meta_update metadata set_metadata).

(** [unset(self, path, store=AUTO)]. *)
Definition unset (path : PathArg) (store : option SettingValueStore)
    : M Backend Metadata :=
  let store := default AUTO store in
  let path := path_segments path in
  let name := String.concat "." path in
  let* setting_def := resolve_setting_def name None in
  let metadata : Metadata :=
    <["name" := MStr name]>
      (<["path" := MPath path]>
         (<["store" := MStore store]>
            (<["setting" := MSetting setting_def]> ∅))) in
  let manager := manager store false in
  let* unset_metadata :=
    manager_write (fun w => manager_unset manager w name path setting_def) in
  ret (meta_update metadata unset_metadata).

(** [reset(self, store=AUTO)]. *)
Definition reset (store : option SettingValueStore) : M Backend Metadata :=
  let store := default AUTO store in
  let metadata : Metadata := <["store" := MStore store]> ∅ in
  let manager := manager store false in
  let* reset_metadata := manager_write (fun w => manager_reset manager w) in
  ret (meta_update metadata reset_metadata).
End WritePath.


(** ** An in-memory variant of the service

    A small variant with its stores held in memory, on which the service
    can be run: a list of declared definitions, a flat YAML config, the
    entries of every store, and a log of the stores whose manager wrote. *)

Record Mem : Type := {
  mem_defs : list SettingDefinition.t;
  mem_yml : Dict Value;
  mem_values : list (SettingValueStore * (string * Value));
  mem_writes : list SettingValueStore
}.

Definition string_in (s : string) (l : list string) : bool :=
  existsb (String.eqb s) l.

(** A caster in the manner of the boolean kind: a string becomes whether
    it spells a truth value; every other value is kept. *)
Definition mem_cast_value (d : SettingDefinition.t) (v : Value) : Value :=
  if String.eqb (SettingDefinition.kind d) "boolean"
  then match v with
       | VStr s => VBool (string_in s ["true"; "1"; "yes"; "on"])
       | _ => v
       end
  else v.

Definition mem_stringify_value (d : SettingDefinition.t) (v : Value) : string :=
  match v with
  | VStr s => s
  | VBool true => "true"
  | VBool false => "false"
  | _ => ""
  end.

(** One variable per prefix, and for a boolean its negated twin. *)
Definition mem_env_vars (d : SettingDefinition.t) (prefixes : list string)
    : list EnvVar.t :=
  flat_map
    (fun p =>
       {| EnvVar.key := String.append p (String.append "_" (SettingDefinition.name d));
          EnvVar.negated := false |}
       :: (if String.eqb (SettingDefinition.kind d) "boolean"
           then [{| EnvVar.key :=
                      String.append p
                        (String.append "_NO_" (SettingDefinition.name d));
                    EnvVar.negated := true |}]
           else []))
    prefixes.

(** A definition for every config key that no declared definition names. *)
Definition mem_from_missing (defs : list SettingDefinition.t)
    (config : Dict Value) : list SettingDefinition.t :=
  List.map
    (fun kv =>
       {| SettingDefinition.name := fst kv;
          SettingDefinition.aliases := [];
          SettingDefinition.kind := "";
          SettingDefinition.is_extra := false;
          SettingDefinition.is_redacted := false |})
    (List.filter
       (fun kv => negb (string_in (fst kv) (List.map SettingDefinition.name defs)))
       config).

#[export] Instance mem_ops : SettingDefinitionOps := {|
  cast_value := mem_cast_value;
  stringify_value := mem_stringify_value;
  env_vars := mem_env_vars;
  from_missing := mem_from_missing
|}.

#[export] Instance mem_variant : ServiceVariant Mem := {|
  _env_prefixes := ["MELTANO"];
  _generic_env_prefix := None;
  _definitions := mem_defs;
  flat_meltano_yml_config := mem_yml
|}.

(** The entry of [name] in one store. *)
Fixpoint mem_lookup (s : SettingValueStore) (name : string)
    (l : list (SettingValueStore * (string * Value))) : option Value :=
  match l with
  | [] => None
  | (s', (n, v)) :: r =>
      if store_eqb s s' && String.eqb name n then Some v
      else mem_lookup s name r
  end.

(** The first store, in precedence order, that holds [name]. *)
Fixpoint mem_first (stores : list SettingValueStore) (name : string)
    (l : list (SettingValueStore * (string * Value)))
    : option (SettingValueStore * Value) :=
  match stores with
  | [] => None
  | s :: r =>
      match mem_lookup s name l with
      | Some v => Some (s, v)
      | None => mem_first r name l
      end
  end.

Definition mem_get (m : Manager) (w : World Mem) (name : string)
    (setting_def : option SettingDefinition.t)
    (expandible_env : gmap string string) : Res (Value * Metadata) :=
  match mgr_store m with
  | AUTO =>
      match mem_first [CONFIG_OVERRIDE; ENV; DOTENV; MELTANO_YML; DB] name
              (mem_values (backend w)) with
      | Some (s, v) => Ok (v, {["source" := MStore s]})
      | None => Ok (VNone, {["source" := MStore DEFAULT]})
      end
  | DEFAULT => Ok (VNone, ∅)
  | s => Ok (default VNone (mem_lookup s name (mem_values (backend w))), ∅)
  end.

Definition mem_forget (keep : SettingValueStore * (string * Value) -> bool)
    (b : Mem) (s : SettingValueStore) : Mem :=
  {| mem_defs := mem_defs b;
     mem_yml := mem_yml b;
     mem_values := List.filter keep (mem_values b);
     mem_writes := s :: mem_writes b |}.

Definition mem_set (m : Manager) (w : World Mem) (name : string)
    (path : list string) (value : Value)
    (setting_def : option SettingDefinition.t) : Res Metadata * Mem :=
  (Ok ∅,
   {| mem_defs := mem_defs (backend w);
      mem_yml := mem_yml (backend w);
      mem_values := (mgr_store m, (name, value)) :: mem_values (backend w);
      mem_writes := mgr_store m :: mem_writes (backend w) |}).

Definition mem_unset (m : Manager) (w : World Mem) (name : string)
    (path : list string) (setting_def : option SettingDefinition.t)
    : Res Metadata * Mem :=
  (Ok ∅,
   mem_forget
     (fun e => negb (store_eqb (mgr_store m) (fst e)
                     && String.eqb name (fst (snd e))))
     (backend w) (mgr_store m)).

Definition mem_reset (m : Manager) (w : World Mem) : Res Metadata * Mem :=
  (Ok ∅,
   mem_forget (fun e => negb (store_eqb (mgr_store m) (fst e)))
     (backend w) (mgr_store m)).

#[export] Instance mem_managers : StoreManagers Mem := {|
  manager_get := mem_get;
  manager_set := mem_set;
  manager_unset := mem_unset;
  manager_reset := mem_reset
|}.

Definition mk_def (name : string) (aliases : list string) (kind : string)
    (is_redacted : bool) : SettingDefinition.t :=
  {| SettingDefinition.name := name;
     SettingDefinition.aliases := aliases;
     SettingDefinition.kind := kind;
     SettingDefinition.is_extra := false;
     SettingDefinition.is_redacted := is_redacted |}.

Definition mem_world (defs : list SettingDefinition.t) (yml : Dict Value)
    (values : list (SettingValueStore * (string * Value))) : World Mem :=
  {| self := __init__ None None None;
     backend := {| mem_defs := defs; mem_yml := yml; mem_values := values;
                   mem_writes := [] |} |}.

(** ** Notions used in the statements *)

(** The catalog a call of [definitions] works on: the cached list, or the
    one the first call builds. *)
Definition catalog {Backend : Type} `{SettingDefinitionOps}
    `{ServiceVariant Backend} (w : World Backend) : list SettingDefinition.t :=
  match _setting_defs (self w) with
  | Some l => l
  | None => build_setting_defs w
  end.

(** The [extras] filter in the spec's words: [True] keeps only the extra
    settings, [False] only the others, [None] all of them. *)
Definition select_extras (extras : option bool)
    (l : list SettingDefinition.t) : list SettingDefinition.t :=
  match extras with
  | None => l
  | Some e => List.filter (fun s => Bool.eqb (SettingDefinition.is_extra s) e) l
  end.

(** The world a call leaves when only the cache was filled. *)
Definition with_cache {Backend : Type} `{SettingDefinitionOps}
    `{ServiceVariant Backend} (w : World Backend) : World Backend :=
  match _setting_defs (self w) with
  | Some _ => w
  | None => set_setting_defs (build_setting_defs w) w
  end.


(** The value and the source a flat entry carries, if it is there. *)
Definition nested_value (entry : option Metadata) : option Value :=
  match entry with
  | Some config_metadata =>
      match config_metadata !! "value" with
      | Some (MVal v) => Some v
      | _ => None
      end
  | None => None
  end.

Section ReadNotions.
Context {Backend : Type} `{SettingDefinitionOps} `{ServiceVariant Backend}.

(** An entry [k = s] of an environment comes from [full_config]: some
    setting of it has a value other than [None], one of its variables is
    named [k] and is not negated, and [s] is the stringified value. *)
Definition stringified_from (full_config : Dict Metadata) (k s : string)
    : Prop :=
  exists key config value setting_def env_var,
    In (key, config) full_config
    /\ config !! "value" = Some (MVal value)
    /\ value <> VNone
    /\ config !! "setting" = Some (MSetting (Some setting_def))
    /\ In env_var (setting_env_vars setting_def true)
    /\ EnvVar.negated env_var = false
    /\ EnvVar.key env_var = k
    /\ s = stringify_value setting_def value.

(** The flat configs of the keys in turn, each at the prefix [key + "."];
    [cwm] is [config_with_metadata] at a prefix. *)
Fixpoint flat_configs (cwm : option string -> M Backend (Dict Metadata))
    (keys : list string) : M Backend (list (Dict Metadata)) :=
  match keys with
  | [] => ret []
  | setting_key :: rest =>
      let* flat_config_metadata :=
        cwm (Some (String.append setting_key ".")) in
      let* flats := flat_configs cwm rest in
      ret (flat_config_metadata :: flats)
  end.
End ReadNotions.

(** ** Worlds the statements are run on *)

Definition flag_def : SettingDefinition.t := mk_def "flag" [] "boolean" false.

(** A boolean setting whose stored string is the sentinel. *)
Definition flag_world : World Mem :=
  mem_world [flag_def] [] [(ENV, ("flag", VStr "(redacted)"))].

Definition password_def : SettingDefinition.t :=
  mk_def "password" ["pw"] "string" true.

Definition password_world : World Mem :=
  mem_world [password_def] [] [(DB, ("password", VStr "s3cr3t"))].

Definition obj_def : SettingDefinition.t := mk_def "obj" ["o"] "object" false.

(** An object setting with nested keys under its name and its alias; the
    key [x] is given under both, from different stores. *)
Definition obj_world : World Mem :=
  mem_world [obj_def]
    [("obj.x", VInt 1); ("o.x", VInt 7); ("o.y", VInt 2)]
    [(MELTANO_YML, ("obj.x", VInt 1)); (ENV, ("o.x", VInt 7));
     (MELTANO_YML, ("o.y", VInt 2))].


(** ** The accessors built on the read and write paths *)

(** The dict comprehension of [as_dict],
    [{key: metadata["value"] for key, metadata in config_metadata.items()}]. *)
Fixpoint envelope_values (items : Dict Metadata) (config : Dict meta_val)
    : Res (Dict meta_val) :=
  match items with
  | [] => Ok config
  | (key, metadata) :: rest =>
      match metadata !! "value" with
      | Some v => envelope_values rest (dict_set key v config)
      | None => Raise (KeyError "value")
      end
  end.

Section Accessors.
Context {Backend : Type} `{SettingDefinitionOps} `{ServiceVariant Backend}
        `{StoreManagers Backend}.

(** The abstract hook [_process_config] of the variant. *)
Variable _process_config : Dict meta_val -> M Backend (Dict meta_val).

(** [as_dict(self, *args, process=False, **kwargs)]. *)
Definition as_dict (fuel : nat) (process : bool) (prefix : option string)
    (extras : option bool) (redacted : bool) (source : SettingValueStore)
    (source_manager : option Manager) : M Backend (Dict meta_val) :=
  let* config_metadata :=
    config_with_metadata fuel prefix extras redacted source source_manager in
  let* config := lift (envelope_values config_metadata []) in
  if process then _process_config config else ret config.

(** [get_with_source(self, *args, **kwargs)]. *)
Definition get_with_source (fuel : nat) (name : string) (redacted : bool)
    (source : SettingValueStore) (source_manager : option Manager)
    (setting_def : option SettingDefinition.t) : M Backend (Value * meta_val) :=
  let* (value, metadata) :=
    get_with_metadata fuel name redacted source source_manager setting_def in
  match metadata !! "source" with
  | Some s => ret (value, s)
  | None => raise (KeyError "source")
  end.

(** [get(self, *args, **kwargs)]. *)
Definition get (fuel : nat) (name : string) (redacted : bool)
    (source : SettingValueStore) (source_manager : option Manager)
    (setting_def : option SettingDefinition.t) : M Backend Value :=
  let* (value, _) :=
    get_with_source fuel name redacted source source_manager setting_def in
  ret value.

(** [set(self, *args, **kwargs)]. *)
Definition set (path : PathArg) (value : Value)
    (store : option SettingValueStore) : M Backend Value :=
  let* (value, _) := set_with_metadata path value store in
  ret value.
End Accessors.

(** ** Notions used to state [config_with_metadata] *)

(** The definitions the loop of [config_with_metadata] does not skip: all
    of them when the prefix is [None] or empty, else those whose name
    starts with it. *)
Definition selected (prefix : option string) (d : SettingDefinition.t)
    : bool :=
  negb (str_truthy prefix)
  || startswith (SettingDefinition.name d) (default "" prefix).

(** The key a definition is filed under: its name less the prefix. *)
Definition config_key (prefix : option string) (d : SettingDefinition.t)
    : string :=
  if str_truthy prefix
  then string_drop (String.length (default "" prefix)) (SettingDefinition.name d)
  else SettingDefinition.name d.

(** The manager [config_with_metadata] works with. *)
Definition bulk_manager (source : SettingValueStore)
    (source_manager : option Manager) : Manager :=
  match source_manager with
  | Some m => set_bulk m
  | None => manager source true
  end.


(** The metadata and the envelope of the password setting of
    [password_world], read from the database store. *)
Definition password_metadata (redacted : bool) : Metadata :=
  let m : Metadata :=
    <["name" := MStr "password"]>
      (<["source" := MStore DB]>
         (<["setting" := MSetting (Some password_def)]> ∅)) in
  if redacted then <["redacted" := MBool true]> m else m.

Definition password_envelope (value : Value) (redacted : bool) : Metadata :=
  <["value" := MVal value]> (password_metadata redacted).

(** A getter that knows the password setting and nothing else. *)
Definition password_only_getter : getter (Backend := Mem) :=
  fun name redacted source source_manager setting_def =>
    if String.eqb name "password"
    then get_with_metadata 1 name redacted source source_manager setting_def
    else raise RecursionError.


(** ** The stages of [get_with_metadata] *)

Section ReadStages.
Context {Backend : Type} `{SettingDefinitionOps} `{ServiceVariant Backend}
        `{StoreManagers Backend}.

(** Lines 184-199 of [get_with_metadata] for a definition already
    resolved: the expansion environment, built for an extra setting
    only, the manager's answer, and the envelope updated with the
    manager's metadata. The third component is the manager argument as
    the caller holds it afterwards. *)
Definition raw_read (fuel : nat) (d : SettingDefinition.t) (redacted : bool)
    (source : SettingValueStore) (source_manager : option Manager)
    : M Backend (Value * Metadata * option Manager) :=
  let name := SettingDefinition.name d in
  let metadata : Metadata :=
    <["name" := MStr name]>
      (<["source" := MStore source]>
         (<["setting" := MSetting (Some d)]> ∅)) in
  let* (expandible_env, source_manager) :=
    if SettingDefinition.is_extra d
    then
      let* expandible_env :=
        as_env fuel None (Some false) redacted source source_manager in
      ret (expandible_env, option_map set_bulk source_manager)
    else ret (∅, source_manager) in
  let manager := default (manager source false) source_manager in
  let* (value, get_metadata) :=
    (fun w => (manager_get manager w name (Some d) expandible_env, w)) in
  ret (value, meta_update metadata get_metadata, source_manager).

(** Lines 184-227: [raw_read], then the object assembly. Its result is
    what the cast of line 229 is applied to. *)
Definition before_cast (fuel : nat) (d : SettingDefinition.t)
    (redacted : bool) (source : SettingValueStore)
    (source_manager : option Manager) : M Backend (Value * Metadata) :=
  let* (value, metadata, source_manager) :=
    raw_read fuel d redacted source source_manager in
  assemble_object
    (fun prefix =>
       config_with_metadata fuel prefix None redacted source source_manager)
    d value metadata.
End ReadStages.

(** ** Catalogs in which a key is claimed twice *)

Definition b_def : SettingDefinition.t := mk_def "b" [] "string" false.

Definition a_def : SettingDefinition.t := mk_def "a" ["b"] "string" false.

(** The alias of the second definition is the name of the first. *)
Definition shadow_world : World Mem := mem_world [b_def; a_def] [] [].

(** The YAML config has a key that is an alias of a declared definition,
    so a definition named after the alias is synthesized behind it. *)
Definition yml_alias_world : World Mem :=
  mem_world [password_def] [("pw", VStr "x")]
    [(DB, ("password", VStr "s3cr3t"))].


(** * Properties *)

(** ** Values and [unredact] *)

Lemma py_eq_str (v : Value) (s : string) :
  py_eq v (VStr s) = true <-> v = VStr s.
Proof.
  destruct v; simpl; split; intros E; try discriminate; try congruence.
  - apply String.eqb_eq in E. now subst.
  - injection E as ->. apply String.eqb_refl.
Qed.

Lemma py_ne_sentinel (v : Value) :
  negb (py_eq v (VStr REDACTED_VALUE)) = true <-> v <> VStr REDACTED_VALUE.
Proof.
  rewrite negb_true_iff, <- (py_eq_str v REDACTED_VALUE).
  destruct (py_eq v (VStr REDACTED_VALUE)); split; congruence.
Qed.

Lemma filter_all_true {A} (f : A -> bool) (l : list A) :
  (forall x, In x l -> f x = true) -> List.filter f l = l.
Proof.
  induction l as [|x l IH]; simpl; intros Hall; [reflexivity|].
  rewrite (Hall x (or_introl eq_refl)). f_equal. apply IH.
  intros y Hy. apply Hall. now right.
Qed.

Lemma filter_twice {A} (f : A -> bool) (l : list A) :
  List.filter f (List.filter f l) = List.filter f l.
Proof.
  apply filter_all_true. intros x Hx. now apply List.filter_In in Hx.
Qed.

(** C10. [unredact] keeps exactly the entries whose value is not the
    sentinel string, each with its key and value; a key whose value is
    not the sentinel reads the same before and after; a dict that holds
    no sentinel is returned as it is, and applying [unredact] twice is
    applying it once. *)
Theorem unredact_keeps_unredacted (values : Dict Value) :
  (forall k v, In (k, v) (unredact values)
               <-> In (k, v) values /\ v <> VStr REDACTED_VALUE)
  /\ (forall k, dict_get k values <> Some (VStr REDACTED_VALUE) ->
                dict_get k (unredact values) = dict_get k values)
  /\ ((forall k v, In (k, v) values -> v <> VStr REDACTED_VALUE) ->
      unredact values = values)
  /\ unredact (unredact values) = unredact values.
Proof.
  split; [|split; [|split]].
  - intros k v. unfold unredact. rewrite List.filter_In. simpl.
    now rewrite py_ne_sentinel.
  - intros k. revert k. unfold unredact.
    induction values as [|[k' v] r IH]; simpl; intros k Hne; [reflexivity|].
    destruct (String.eqb k k') eqn:Ek.
    + assert (Hv : negb (py_eq v (VStr REDACTED_VALUE)) = true).
      { apply py_ne_sentinel. congruence. }
      rewrite Hv. simpl. now rewrite Ek.
    + destruct (negb (py_eq v (VStr REDACTED_VALUE))); simpl;
        [rewrite Ek|]; now apply IH.
  - intros Hall. apply filter_all_true. intros [k v] Hin. simpl.
    apply py_ne_sentinel. eapply Hall, Hin.
  - apply filter_twice.
Qed.

(** ** The catalog *)

Section CatalogFacts.
Context {Backend : Type} `{SettingDefinitionOps} `{ServiceVariant Backend}.

Lemma definitions_run (extras : option bool) (w : World Backend) :
  definitions extras w = (Ok (select_extras extras (catalog w)), with_cache w).
Proof.
  unfold definitions, catalog, with_cache, select_extras.
  destruct (_setting_defs (self w)) as [l|] eqn:E; simpl; rewrite ?E; simpl.
  - destruct extras as [[|]|]; simpl; try reflexivity; do 2 f_equal;
      apply List.filter_ext; intros s;
      destruct (SettingDefinition.is_extra s); reflexivity.
  - destruct extras as [[|]|]; simpl; try reflexivity; do 2 f_equal;
      apply List.filter_ext; intros s;
      destruct (SettingDefinition.is_extra s); reflexivity.
Qed.

Lemma with_cache_backend (w : World Backend) : backend (with_cache w) = backend w.
Proof. unfold with_cache. now destruct (_setting_defs (self w)). Qed.

Lemma with_cache_cached (w : World Backend) :
  _setting_defs (self (with_cache w)) = Some (catalog w).
Proof.
  unfold with_cache, catalog.
  now destruct (_setting_defs (self w)) eqn:E; simpl; rewrite ?E.
Qed.

Lemma with_cache_catalog (w : World Backend) : catalog (with_cache w) = catalog w.
Proof. unfold catalog at 1. now rewrite with_cache_cached. Qed.

Lemma with_cache_idem (w : World Backend) : with_cache (with_cache w) = with_cache w.
Proof. unfold with_cache at 1. now rewrite with_cache_cached. Qed.

Lemma find_setting_run (name : string) (w : World Backend) :
  find_setting name w =
  (match List.find (matches name) (catalog w) with
   | Some s => Ok s
   | None => Raise (SettingMissingError name)
   end, with_cache w).
Proof.
  unfold find_setting, bind. rewrite definitions_run. simpl.
  now destruct (List.find (matches name) (catalog w)).
Qed.

Lemma matches_spec (name : string) (d : SettingDefinition.t) :
  matches name d = true
  <-> SettingDefinition.name d = name \/ In name (SettingDefinition.aliases d).
Proof.
  unfold matches. rewrite orb_true_iff, String.eqb_eq, existsb_exists.
  split; intros [E|E]; auto.
  - destruct E as [a [Hin Ea]]. apply String.eqb_eq in Ea. subst. now right.
  - right. exists name. split; [exact E|apply String.eqb_refl].
Qed.

Lemma select_extras_In (extras : option bool) (l : list SettingDefinition.t)
    (d : SettingDefinition.t) :
  In d (select_extras extras l)
  <-> In d l /\ match extras with
                | None => True
                | Some e => SettingDefinition.is_extra d = e
                end.
Proof.
  destruct extras as [e|]; simpl; [|tauto].
  rewrite List.filter_In.
  destruct (SettingDefinition.is_extra d), e; simpl; intuition congruence.
Qed.

(** C8. [definitions(extras)] answers from one catalog per instance: the
    first call builds it from the declared definitions, without those of
    kind hidden unless [show_hidden], followed by what [from_missing]
    synthesizes from the declared definitions and the flat YAML config; it
    stores it in [_setting_defs], and every later call answers from that
    stored list whatever the stores have become. [extras=True] keeps only
    the extra settings, [extras=False] only the others. *)
Theorem definitions_merged_once (extras : option bool) (w : World Backend) :
  fst (definitions extras w) = Ok (select_extras extras (catalog w))
  /\ _setting_defs (self (snd (definitions extras w))) = Some (catalog w)
  /\ backend (snd (definitions extras w)) = backend w
  /\ (_setting_defs (self w) = None ->
      catalog w
      = List.filter
          (fun s => negb (String.eqb (SettingDefinition.kind s) "hidden")
                    || show_hidden (self w))
          (_definitions (backend w))
        ++ from_missing (_definitions (backend w))
             (flat_meltano_yml_config (backend w)))
  /\ (forall d,
        In d (build_setting_defs w)
        <-> (In d (_definitions (backend w))
             /\ (SettingDefinition.kind d <> "hidden"
                 \/ show_hidden (self w) = true))
            \/ In d (from_missing (_definitions (backend w))
                       (flat_meltano_yml_config (backend w))))
  /\ (forall extras' b',
        fst (definitions extras'
               {| self := self (snd (definitions extras w)); backend := b' |})
        = Ok (select_extras extras' (catalog w)))
  /\ (forall d,
        In d (select_extras extras (catalog w))
        <-> In d (catalog w)
            /\ match extras with
               | None => True
               | Some e => SettingDefinition.is_extra d = e
               end).
Proof.
  rewrite definitions_run. simpl.
  split; [reflexivity|]. split; [apply with_cache_cached|].
  split; [apply with_cache_backend|]. split; [|split; [|split]].
  - intros E. unfold catalog. now rewrite E.
  - intros d. unfold build_setting_defs. rewrite in_app_iff, List.filter_In.
    rewrite orb_true_iff, negb_true_iff, String.eqb_neq. tauto.
  - intros extras' b'. rewrite definitions_run. simpl. unfold catalog at 1.
    simpl. now rewrite with_cache_cached.
  - intros d. apply select_extras_In.
Qed.

(** [List.find] returns the first element that passes the test. *)
Lemma find_first {A} (f : A -> bool) (l : list A) (x : A) :
  List.find f l = Some x
  <-> exists pre post,
        l = pre ++ x :: post /\ f x = true
        /\ forall y, In y pre -> f y = false.
Proof.
  split.
  - induction l as [|a l IH]; simpl; [discriminate|].
    destruct (f a) eqn:Ha.
    + intros [= ->]. exists [], l. repeat split; [exact Ha|intros y []].
    + intros Hf. destruct (IH Hf) as (pre & post & -> & Hx & Hpre).
      exists (a :: pre), post. repeat split; [exact Hx|].
      intros y [<-|Hy]; [exact Ha|now apply Hpre].
  - intros (pre & post & -> & Hx & Hpre).
    induction pre as [|a pre IH]; simpl.
    + now rewrite Hx.
    + rewrite (Hpre a (or_introl eq_refl)). apply IH.
      intros y Hy. apply Hpre. now right.
Qed.

Lemma matches_false (name : string) (d : SettingDefinition.t) :
  matches name d = false
  <-> SettingDefinition.name d <> name
      /\ ~ In name (SettingDefinition.aliases d).
Proof.
  rewrite <- Bool.not_true_iff_false, matches_spec. tauto.
Qed.

(** C5, as the code has it. An alias of a definition of the catalog
    always resolves, to the first definition in catalog order that has it
    as its name or among its aliases. It resolves to the definition
    itself, and so does the canonical name, when no earlier definition of
    the catalog has the alias or that name as its name or among its
    aliases. Whatever [find_setting] returns has the requested string,
    character for character, as its name or among its aliases. *)
Theorem find_setting_alias_resolves (w : World Backend)
    (d : SettingDefinition.t) (alias : string) :
  In d (catalog w) ->
  In alias (SettingDefinition.aliases d) ->
  (exists d1 pre post,
      fst (find_setting alias w) = Ok d1
      /\ catalog w = pre ++ d1 :: post
      /\ (SettingDefinition.name d1 = alias
          \/ In alias (SettingDefinition.aliases d1))
      /\ forall d', In d' pre ->
                    SettingDefinition.name d' <> alias
                    /\ ~ In alias (SettingDefinition.aliases d'))
  /\ (forall pre post,
        catalog w = pre ++ d :: post ->
        (forall d', In d' pre ->
                    SettingDefinition.name d' <> alias
                    /\ ~ In alias (SettingDefinition.aliases d')
                    /\ SettingDefinition.name d' <> SettingDefinition.name d
                    /\ ~ In (SettingDefinition.name d)
                         (SettingDefinition.aliases d')) ->
        fst (find_setting alias w) = Ok d
        /\ fst (find_setting (SettingDefinition.name d) w) = Ok d
        /\ fst (find_setting alias w)
           = fst (find_setting (SettingDefinition.name d) w))
  /\ (forall n d', fst (find_setting n w) = Ok d' ->
                   SettingDefinition.name d' = n
                   \/ In n (SettingDefinition.aliases d')).
Proof.
  intros Hd Halias.
  assert (Hrun : forall n,
            fst (find_setting n w)
            = match List.find (matches n) (catalog w) with
              | Some s => Ok s
              | None => Raise (SettingMissingError n)
              end).
  { intros n. rewrite find_setting_run. simpl.
    now destruct (List.find (matches n) (catalog w)). }
  split; [|split].
  - destruct (List.find (matches alias) (catalog w)) as [d1|] eqn:F.
    + pose proof F as F'.
      apply find_first in F' as (pre & post & Hcat & Hm & Hpre).
      exists d1, pre, post. rewrite Hrun, F.
      split; [reflexivity|]. split; [exact Hcat|].
      split; [now apply matches_spec|].
      intros d' Hd'. now apply matches_false, Hpre.
    + exfalso. eapply List.find_none in F; [|exact Hd].
      apply matches_false in F. tauto.
  - intros pre post Hcat Hpre.
    assert (Ha : List.find (matches alias) (catalog w) = Some d).
    { apply find_first. exists pre, post. split; [exact Hcat|].
      split; [apply matches_spec; now right|].
      intros y Hy. apply matches_false. destruct (Hpre y Hy). tauto. }
    assert (Hn : List.find (matches (SettingDefinition.name d)) (catalog w)
                 = Some d).
    { apply find_first. exists pre, post. split; [exact Hcat|].
      split; [apply matches_spec; now left|].
      intros y Hy. apply matches_false. destruct (Hpre y Hy). tauto. }
    rewrite !Hrun, Ha, Hn. now repeat split.
  - intros n d'. rewrite Hrun.
    destruct (List.find (matches n) (catalog w)) as [s|] eqn:F;
      [|discriminate].
    intros [= <-]. apply List.find_some in F as [_ Hm].
    now apply matches_spec.
Qed.

End CatalogFacts.

(** ** Default arguments of [__init__] *)

(** C9. Two instances built without [env_override] and [config_override]
    hold the same two dicts: an item set through the first instance is
    read through the second, in [env_override] (and so in [env]) and in
    [config_override] alike; the claimed independence fails. *)
Theorem default_overrides_are_shared (k v : string) :
  let a := __init__ None None None in
  let b := __init__ None None None in
  env ∅ initial_heap b !! k = None
  /\ env ∅ (env_override_setitem a k v initial_heap) b !! k = Some v
  /\ initial_heap !! config_override b = Some ∅
  /\ config_override_setitem a k v initial_heap !! config_override b
     = Some {[k := v]}.
Proof.
  cbv zeta. unfold env, env_override_setitem, config_override_setitem,
    initial_heap, __init__, default_env_override, default_config_override.
  simpl. split; [|split; [|split]].
  - rewrite lookup_insert_ne by discriminate. rewrite lookup_insert_eq. simpl.
    rewrite lookup_union. now rewrite !lookup_empty.
  - rewrite (lookup_insert_ne _ 1 0) by discriminate. rewrite lookup_insert_eq.
    rewrite lookup_insert_eq. simpl. rewrite lookup_union.
    rewrite lookup_insert_eq. now rewrite lookup_empty.
  - now rewrite lookup_insert_eq.
  - rewrite lookup_insert_eq. rewrite lookup_insert_eq.
    now rewrite insert_empty.
Qed.

(** ** The write path *)

Section WriteFacts.
Context {Backend : Type} `{SettingDefinitionOps} `{ServiceVariant Backend}.

Lemma resolve_setting_def_run (name : string)
    (setting_def : option SettingDefinition.t) (w : World Backend) :
  resolve_setting_def name setting_def w
  = match setting_def with
    | Some d => (Ok (Some d), w)
    | None => (Ok (List.find (matches name) (catalog w)), with_cache w)
    end.
Proof.
  destruct setting_def as [d|]; [reflexivity|].
  unfold resolve_setting_def, catch_missing, bind.
  rewrite find_setting_run.
  now destruct (List.find (matches name) (catalog w)).
Qed.

(** C1. When the value is the sentinel string, [set_with_metadata]
    returns [None] with [redacted: True] in the metadata, leaves the
    stores as they were, and does the same whatever the managers are: no
    manager is asked to set anything. *)
Theorem set_with_metadata_sentinel_is_noop `{SM : StoreManagers Backend}
    (path : PathArg) (store : option SettingValueStore) (w : World Backend) :
  (exists metadata,
      fst (set_with_metadata path (VStr REDACTED_VALUE) store w)
      = Ok (VNone, metadata)
      /\ metadata !! "redacted" = Some (MBool true))
  /\ backend (snd (set_with_metadata path (VStr REDACTED_VALUE) store w))
     = backend w
  /\ (forall other : StoreManagers Backend,
        set_with_metadata (H1 := other) path (VStr REDACTED_VALUE) store w
        = set_with_metadata (H1 := SM) path (VStr REDACTED_VALUE) store w).
Proof.
  unfold set_with_metadata, bind. rewrite resolve_setting_def_run.
  simpl. repeat split.
  - eexists. split; [reflexivity|]. apply lookup_insert_eq.
  - apply with_cache_backend.
Qed.


(** C3, as the code has it. Each write operation hands the write to the
    manager of the store it was called with, and to the manager of [AUTO]
    when the caller names none: the stores it leaves are those that this
    manager leaves. Nothing in the three operations sets [AUTO] apart. *)
Theorem write_path_delegates_to_given_store `{SM : StoreManagers Backend}
    (path : PathArg) (value : Value) (store : option SettingValueStore)
    (w : World Backend) :
  let name := String.concat "." (path_segments path) in
  let setting_def := List.find (matches name) (catalog w) in
  let written :=
    match setting_def with
    | Some d => fst (cast_step d value ∅)
    | None => value
    end in
  let target := manager (default AUTO store) false in
  (py_eq value (VStr REDACTED_VALUE) = false ->
   backend (snd (set_with_metadata path value store w))
   = snd (manager_set target (with_cache w) name (path_segments path)
            written setting_def))
  /\ backend (snd (unset path store w))
     = snd (manager_unset target (with_cache w) name (path_segments path)
              setting_def)
  /\ backend (snd (reset store w)) = snd (manager_reset target w)
  /\ mgr_store target = default AUTO store.
Proof.
  cbv zeta. split; [|split; [|split]].
  - intros Hv. unfold set_with_metadata, bind.
    rewrite resolve_setting_def_run. rewrite Hv.
    destruct (List.find (matches _) (catalog w)) as [d|]; simpl.
    + unfold cast_step.
      destruct (negb (py_eq (cast_value d value) value)); simpl;
        unfold manager_write;
        match goal with
        | |- context [manager_set ?m ?w' ?n ?p ?v ?s] =>
            destruct (manager_set m w' n p v s) as [[md|e] b]
        end; reflexivity.
    + unfold manager_write.
      match goal with
      | |- context [manager_set ?m ?w' ?n ?p ?v ?s] =>
          destruct (manager_set m w' n p v s) as [[md|e] b]
      end; reflexivity.
  - unfold unset, bind. rewrite resolve_setting_def_run. unfold manager_write.
    match goal with
    | |- context [manager_unset ?m ?w' ?n ?p ?s] =>
        destruct (manager_unset m w' n p s) as [[md|e] b]
    end; reflexivity.
  - unfold reset, bind, manager_write.
    match goal with
    | |- context [manager_reset ?m ?w'] =>
        destruct (manager_reset m w') as [[md|e] b]
    end; reflexivity.
  - reflexivity.
Qed.

End WriteFacts.

(** C3, as stated, fails: called without a store, each of the three writes
    is carried out by the manager of [AUTO], which no caller named. *)
Lemma write_without_store_uses_auto :
  mem_writes
    (backend (snd (set_with_metadata (PathStr "username") (VStr "alice") None
                     (mem_world [] [] []))))
  = [AUTO]
  /\ mem_writes
       (backend (snd (unset (PathStr "username") None (mem_world [] [] []))))
     = [AUTO]
  /\ mem_writes (backend (snd (reset None (mem_world [] [] [])))) = [AUTO].
Proof. repeat split. Qed.

Lemma write_path_delegates_witness :
  py_eq (VStr "alice") (VStr REDACTED_VALUE) = false
  /\ backend (snd (set_with_metadata (PathStr "username") (VStr "alice")
                     (Some DB) (mem_world [] [] [])))
     = snd (mem_set (manager DB false) (with_cache (mem_world [] [] []))
              "username" ["username"] (VStr "alice") None).
Proof.
  split; [reflexivity|].
  exact (proj1 (write_path_delegates_to_given_store (SM := mem_managers)
                  (PathStr "username") (VStr "alice") (Some DB)
                  (mem_world [] [] [])) eq_refl).
Defined.

(** ** The read path *)

Section ReadFacts.
Context {Backend : Type} `{SettingDefinitionOps} `{ServiceVariant Backend}
        `{StoreManagers Backend}.

(** The envelope [get_with_metadata] starts from. *)
Lemma base_metadata_lookup (name : string) (source : SettingValueStore)
    (setting_def : option SettingDefinition.t) (gm : Metadata) (k : string) :
  meta_update
    (<["name" := MStr name]>
       (<["source" := MStore source]>
          (<["setting" := MSetting setting_def]> ∅))) gm !! k
  = match gm !! k with
    | Some x => Some x
    | None =>
        if String.eqb k "name" then Some (MStr name)
        else if String.eqb k "source" then Some (MStore source)
        else if String.eqb k "setting" then Some (MSetting setting_def)
        else None
    end.
Proof.
  unfold meta_update. rewrite lookup_union.
  destruct (gm !! k) as [x|] eqn:E; simpl.
  - match goal with |- Some x ∪ ?o = _ => now destruct o end.
  - match goal with
    | |- None ∪ ?o = _ => replace (None ∪ o) with o by now destruct o
    end.
    destruct (String.eqb_spec k "name") as [->|Hn];
      [now rewrite lookup_insert_eq|].
    rewrite lookup_insert_ne by congruence.
    destruct (String.eqb_spec k "source") as [->|Hs];
      [now rewrite lookup_insert_eq|].
    rewrite lookup_insert_ne by congruence.
    destruct (String.eqb_spec k "setting") as [->|Ht];
      [now rewrite lookup_insert_eq|].
    rewrite lookup_insert_ne by congruence. apply lookup_empty.
Qed.

(** The body of [get_with_metadata] at positive fuel. *)
Lemma get_with_metadata_S (fuel : nat) (name : string) (redacted : bool)
    (source : SettingValueStore) (source_manager : option Manager)
    (setting_def : option SettingDefinition.t) :
  get_with_metadata (S fuel) name redacted source source_manager setting_def
  = let* setting_def := resolve_setting_def name setting_def in
    let name :=
      match setting_def with
      | Some d => SettingDefinition.name d
      | None => name
      end in
    let metadata : Metadata :=
      <["name" := MStr name]>
        (<["source" := MStore source]>
           (<["setting" := MSetting setting_def]> ∅)) in
    let* (expandible_env, source_manager) :=
      match setting_def with
      | Some d =>
          if SettingDefinition.is_extra d
          then
            let* expandible_env :=
              as_env fuel None (Some false) redacted source source_manager in
            ret (expandible_env, option_map set_bulk source_manager)
          else ret (∅, source_manager)
      | None => ret (∅, source_manager)
      end in
    let manager := default (manager source false) source_manager in
    let* (value, get_metadata) :=
      (fun w => (manager_get manager w name setting_def expandible_env, w)) in
    let metadata := meta_update metadata get_metadata in
    match setting_def with
    | Some d =>
        let* (value, metadata) :=
          assemble_object
            (fun prefix =>
               config_with_metadata fuel prefix None redacted source
                 source_manager)
            d value metadata in
        ret (cast_then_redact d redacted value metadata)
    | None => ret (value, metadata)
    end.
Proof. reflexivity. Qed.

(** One call of [get_with_metadata] on a definition that is not extra. *)
Lemma get_with_metadata_step (fuel : nat) (name : string) (redacted : bool)
    (source : SettingValueStore) (source_manager : option Manager)
    (d : SettingDefinition.t) (w : World Backend) :
  SettingDefinition.is_extra d = false ->
  get_with_metadata (S fuel) name redacted source source_manager (Some d) w
  = match manager_get (default (manager source false) source_manager) w
            (SettingDefinition.name d) (Some d) ∅ with
    | Raise e => (Raise e, w)
    | Ok (value, gm) =>
        match
          assemble_object
            (fun prefix =>
               config_with_metadata fuel prefix None redacted source
                 source_manager)
            d value
            (meta_update
               (<["name" := MStr (SettingDefinition.name d)]>
                  (<["source" := MStore source]>
                     (<["setting" := MSetting (Some d)]> ∅))) gm) w
        with
        | (Ok (value', metadata'), w') =>
            (Ok (cast_then_redact d redacted value' metadata'), w')
        | (Raise e, w') => (Raise e, w')
        end
    end.
Proof.
  intros Hx. rewrite get_with_metadata_S. unfold bind at 1. simpl.
  rewrite Hx. unfold bind at 1. simpl. unfold bind at 1.
  destruct (manager_get _ w _ _ _) as [[value gm]|e]; [|reflexivity].
  unfold bind.
  destruct (assemble_object _ d value _ w) as [[[v' m']|e] w']; reflexivity.
Qed.

(** C6. [find_setting] raises [SettingMissingError] exactly when no
    definition of the catalog has the name as its name or among its
    aliases. On such a name [get_with_metadata] does not raise it: it asks
    the manager with no definition and an empty expansion environment and
    returns the manager's value as it is, under an envelope whose
    [setting] is [None] and to which it adds no [uncast_value] and no
    [redacted]. *)
Theorem missing_setting_is_recoverable (name : string) (w : World Backend) :
  (fst (find_setting name w) = Raise (SettingMissingError name)
   <-> forall d, In d (catalog w) ->
                 SettingDefinition.name d <> name
                 /\ ~ In name (SettingDefinition.aliases d))
  /\ (fst (find_setting name w) = Raise (SettingMissingError name) ->
      forall fuel redacted source source_manager,
        get_with_metadata (S fuel) name redacted source source_manager None w
        = (match manager_get (default (manager source false) source_manager)
                   (with_cache w) name None ∅ with
           | Ok (value, gm) =>
               Ok (value,
                   meta_update
                     (<["name" := MStr name]>
                        (<["source" := MStore source]>
                           (<["setting" := MSetting None]> ∅))) gm)
           | Raise e => Raise e
           end, with_cache w))
  /\ (forall source (gm : Metadata),
        let envelope :=
          meta_update
            (<["name" := MStr name]>
               (<["source" := MStore source]>
                  (<["setting" := MSetting None]> ∅))) gm in
        (gm !! "setting" = None -> envelope !! "setting" = Some (MSetting None))
        /\ envelope !! "uncast_value" = gm !! "uncast_value"
        /\ envelope !! "redacted" = gm !! "redacted").
Proof.
  assert (Hfind : fst (find_setting name w) = Raise (SettingMissingError name)
                  <-> List.find (matches name) (catalog w) = None).
  { rewrite find_setting_run. simpl.
    destruct (List.find (matches name) (catalog w)); split; congruence. }
  split; [|split].
  - rewrite Hfind. split.
    + intros F d Hd. eapply List.find_none in F; [|exact Hd].
      assert (N : ~ (SettingDefinition.name d = name
                     \/ In name (SettingDefinition.aliases d))).
      { rewrite <- matches_spec. congruence. }
      tauto.
    + intros Hall.
      destruct (List.find (matches name) (catalog w)) as [d|] eqn:F;
        [|reflexivity].
      apply List.find_some in F as [Hd Hm]. apply matches_spec in Hm.
      destruct (Hall d Hd). tauto.
  - intros Hmiss fuel redacted source source_manager. apply Hfind in Hmiss.
    rewrite get_with_metadata_S. unfold bind at 1.
    rewrite resolve_setting_def_run. rewrite Hmiss.
    unfold bind at 1. simpl. unfold bind at 1.
    destruct (manager_get _ _ _ _ _) as [[value gm]|e]; reflexivity.
  - intros source gm envelope. subst envelope.
    rewrite !base_metadata_lookup. repeat split.
    + now intros ->.
    + now destruct (gm !! "uncast_value").
    + now destruct (gm !! "redacted").
Qed.

(** A read of a resolved definition is [before_cast], then the cast and
    the redaction. *)
Lemma get_with_metadata_stages (fuel : nat) (name : string) (redacted : bool)
    (source : SettingValueStore) (source_manager : option Manager)
    (setting_def : option SettingDefinition.t) (w w0 : World Backend)
    (d : SettingDefinition.t) :
  resolve_setting_def name setting_def w = (Ok (Some d), w0) ->
  get_with_metadata (S fuel) name redacted source source_manager setting_def w
  = match before_cast fuel d redacted source source_manager w0 with
    | (Ok (raw, m), w') => (Ok (cast_then_redact d redacted raw m), w')
    | (Raise e, w') => (Raise e, w')
    end.
Proof.
  intros Hres. rewrite get_with_metadata_S.
  unfold before_cast, raw_read, bind, ret. rewrite Hres.
  destruct (SettingDefinition.is_extra d);
    [destruct (as_env fuel None (Some false) redacted source source_manager
                 w0) as [[env|e] w1]; [|reflexivity]|];
    (destruct (manager_get _ _ _ _ _) as [[value gm]|e]; [|reflexivity]);
    (destruct (assemble_object _ d value _ _) as [[[v' m']|e] w2];
     reflexivity).
Qed.





(** *** [as_env] *)

Lemma env_vars_loop_lookup (vars : list EnvVar.t) (value : string)
    (env : gmap string string) (k s : string) :
  env_vars_loop vars value env !! k = Some s ->
  env !! k = Some s
  \/ (s = value
      /\ exists env_var,
           In env_var vars /\ EnvVar.negated env_var = false
           /\ EnvVar.key env_var = k).
Proof.
  revert env. induction vars as [|ev vars IH]; intros env Hk; simpl in Hk.
  - now left.
  - destruct (EnvVar.negated ev) eqn:Hneg.
    + destruct (IH _ Hk) as [Hl|(-> & ev' & Hin & Hn & Hkey)]; [now left|].
      right. split; [reflexivity|]. exists ev'. simpl. tauto.
    + destruct (IH _ Hk) as [Hl|(-> & ev' & Hin & Hn & Hkey)].
      * destruct (decide (EnvVar.key ev = k)) as [Heq|Hne].
        -- subst k. rewrite lookup_insert_eq in Hl. injection Hl as <-.
           right. split; [reflexivity|]. exists ev. simpl. tauto.
        -- rewrite lookup_insert_ne in Hl by exact Hne. now left.
      * right. split; [reflexivity|]. exists ev'. simpl. tauto.
Qed.

Lemma as_env_loop_sound (items : Dict Metadata) (env0 env : gmap string string)
    (k s : string) :
  as_env_loop items env0 = Ok env ->
  env !! k = Some s ->
  env0 !! k = Some s \/ stringified_from items k s.
Proof.
  revert env0. induction items as [|[key config] items IH]; intros env0 Hrun Hk.
  - simpl in Hrun. injection Hrun as <-. now left.
  - assert (Hweak : forall k s, stringified_from items k s ->
                                stringified_from ((key, config) :: items) k s).
    { intros k0 s0 (key' & config' & value & d & ev & Hin & Hrest).
      exists key', config', value, d, ev. simpl. tauto. }
    simpl in Hrun.
    destruct (config !! "value") as [[| |value| | |]|] eqn:Hv;
      try discriminate.
    destruct (config !! "setting") as [[| | | |[d|]|]|] eqn:Hs.
    1-4,6-8: destruct value; try discriminate;
      (destruct (IH _ Hrun Hk) as [Hl|Hr]; [now left|right; now apply Hweak]).
    destruct value eqn:Hval;
      try (destruct (IH _ Hrun Hk) as [Hl|Hr];
           [now left|right; now apply Hweak]).
    all: destruct (IH _ Hrun Hk) as [Hl|Hr]; [|right; now apply Hweak].
    all: apply env_vars_loop_lookup in Hl
        as [Hl|(-> & ev & Hin & Hneg & Hkey)]; [now left|].
    all: right; exists key, config, value, d, ev; subst value;
      repeat split; simpl; try tauto; try congruence; try discriminate.
Qed.

(** C7. Every entry of the environment [as_env] returns is justified by a
    setting of the configuration it iterates: the setting's value is not
    [None], the variable the entry is named after belongs to the setting
    and is not negated, and the entry's value is the setting definition's
    stringification of the setting's value. So a name whose settings are
    all [None], or whose variables are all negated, has no entry. *)
Theorem as_env_entries_are_stringified (fuel : nat) (prefix : option string)
    (extras : option bool) (redacted : bool) (source : SettingValueStore)
    (source_manager : option Manager) (w : World Backend)
    (env : gmap string string) :
  fst (as_env fuel prefix extras redacted source source_manager w) = Ok env ->
  exists full_config,
    fst (config_with_metadata fuel prefix extras redacted source
           source_manager w) = Ok full_config
    /\ (forall k s, env !! k = Some s -> stringified_from full_config k s)
    /\ (forall k,
          (forall key config value setting_def env_var,
              In (key, config) full_config ->
              config !! "value" = Some (MVal value) ->
              config !! "setting" = Some (MSetting (Some setting_def)) ->
              In env_var (setting_env_vars setting_def true) ->
              EnvVar.key env_var = k ->
              value = VNone \/ EnvVar.negated env_var = true) ->
          env !! k = None).
Proof.
  unfold as_env, as_env_body, config_with_metadata, bind, lift.
  destruct (config_with_metadata_body _ _ _ _ _ _ w) as [[full_config|e] w'];
    simpl; [|discriminate].
  intros Hrun. exists full_config. split; [reflexivity|].
  assert (Hsound : forall k s, env !! k = Some s ->
                               stringified_from full_config k s).
  { intros k s Hk.
    destruct (as_env_loop_sound _ _ _ _ _ Hrun Hk) as [Hl|Hr]; [|exact Hr].
    now rewrite lookup_empty in Hl. }
  split; [exact Hsound|].
  intros k Hnone. destruct (env !! k) as [s|] eqn:Hk; [|reflexivity].
  destruct (Hsound _ _ Hk)
    as (key & config & value & d & ev & Hin & Hv & Hnn & Hs & Hev & Hneg
        & Hkey & _).
  destruct (Hnone key config value d ev Hin Hv Hs Hev Hkey); congruence.
Qed.

(** *** The assembly of an object setting *)

Lemma dict_mem_false {A} (k : string) (d : Dict A) :
  dict_mem k d = false <-> dict_get k d = None.
Proof. unfold dict_mem. destruct (dict_get k d); split; congruence. Qed.

Lemma dict_get_set {A} (k k' : string) (v : A) (d : Dict A) :
  dict_get k (dict_set k' v d)
  = if String.eqb k k' then Some v else dict_get k d.
Proof.
  induction d as [|[k0 v0] d IH]; simpl.
  - reflexivity.
  - destruct (String.eqb_spec k' k0) as [->|Hne]; simpl.
    + now destruct (String.eqb k k0).
    + rewrite IH. destruct (String.eqb_spec k k0) as [->|Hne'];
        [|reflexivity].
      destruct (String.eqb_spec k0 k'); congruence.
Qed.

Lemma dict_get_app {A} (k : string) (a b : Dict A) :
  dict_get k (a ++ b)
  = match dict_get k a with Some v => Some v | None => dict_get k b end.
Proof.
  induction a as [|[k0 v0] a IH]; simpl; [reflexivity|].
  now destruct (String.eqb k k0).
Qed.

Lemma nested_loop_app (a b : Dict Metadata) (object_value : Dict Value)
    (object_source : SettingValueStore) :
  nested_loop (a ++ b) object_value object_source
  = match nested_loop a object_value object_source with
    | Ok (object_value', object_source') =>
        nested_loop b object_value' object_source'
    | Raise e => Raise e
    end.
Proof.
  revert object_value object_source.
  induction a as [|[k cm] a IH]; intros ov os; simpl; [reflexivity|].
  destruct (dict_mem k ov); [apply IH|].
  destruct (cm !! "value") as [[| |v| | |]|]; try reflexivity.
  destruct (cm !! "source") as [[| | |s| |]|]; try reflexivity.
  apply IH.
Qed.

(** The first occurrence of a key wins, in the mapping already built and
    then in the items. *)
Lemma nested_loop_values (items : Dict Metadata) (ov ov' : Dict Value)
    (os os' : SettingValueStore) (k : string) :
  nested_loop items ov os = Ok (ov', os') ->
  dict_get k ov'
  = match dict_get k ov with
    | Some v => Some v
    | None => nested_value (dict_get k items)
    end.
Proof.
  revert ov os. induction items as [|[nk cm] items IH]; intros ov os Hrun;
    simpl in Hrun.
  - injection Hrun as <- <-. simpl. now destruct (dict_get k ov).
  - destruct (dict_mem nk ov) eqn:Hmem.
    + rewrite (IH _ _ Hrun). simpl.
      destruct (dict_get k ov) as [v|] eqn:Hk; [reflexivity|].
      destruct (String.eqb_spec k nk) as [->|Hne]; [|reflexivity].
      apply dict_mem_false in Hk. congruence.
    + apply dict_mem_false in Hmem.
      destruct (cm !! "value") as [[| |v| | |]|] eqn:Hv; try discriminate.
      destruct (cm !! "source") as [[| | |s| |]|] eqn:Hs; try discriminate.
      rewrite (IH _ _ Hrun). rewrite dict_get_set. simpl.
      destruct (String.eqb_spec k nk) as [->|Hne].
      * rewrite Hmem. simpl. now rewrite Hv.
      * reflexivity.
Qed.

(** The source after the loop is the one of least rank among the source
    before it and the sources of the entries that entered the mapping. *)
Lemma nested_loop_source (items : Dict Metadata) (ov ov' : Dict Value)
    (os os' : SettingValueStore) :
  nested_loop items ov os = Ok (ov', os') ->
  rank os' <= rank os
  /\ (os' = os
      \/ exists k cm,
           dict_get k ov = None /\ dict_get k items = Some cm
           /\ cm !! "source" = Some (MStore os'))
  /\ (forall k cm s,
        dict_get k ov = None -> dict_get k items = Some cm ->
        cm !! "source" = Some (MStore s) -> rank os' <= rank s).
Proof.
  revert ov os. induction items as [|[nk cm] items IH]; intros ov os Hrun;
    simpl in Hrun.
  - injection Hrun as <- <-. repeat split; [lia|now left|].
    intros k cm s _ Hget. discriminate.
  - destruct (dict_mem nk ov) eqn:Hmem.
    + destruct (IH _ _ Hrun) as (Hle & Hfrom & Hmin).
      assert (Hskip : forall k, dict_get k ov = None ->
                dict_get k ((nk, cm) :: items) = dict_get k items).
      { intros k Hk. simpl.
        destruct (String.eqb_spec k nk) as [->|Hne]; [|reflexivity].
        apply dict_mem_false in Hk. congruence. }
      repeat split; [exact Hle| |].
      * destruct Hfrom as [->|(k & cm' & Hk & Hget & Hsrc)]; [now left|].
        right. exists k, cm'. rewrite (Hskip k Hk). tauto.
      * intros k cm' s Hk Hget Hsrc. rewrite (Hskip k Hk) in Hget.
        now apply (Hmin k cm' s).
    + apply dict_mem_false in Hmem.
      destruct (cm !! "value") as [[| |v| | |]|] eqn:Hv; try discriminate.
      destruct (cm !! "source") as [[| | |ns| |]|] eqn:Hs; try discriminate.
      destruct (IH _ _ Hrun) as (Hle & Hfrom & Hmin).
      assert (Hpromote :
                rank (if overrides ns os then ns else os) <= rank os
                /\ rank (if overrides ns os then ns else os) <= rank ns).
      { unfold overrides. destruct (Nat.ltb_spec (rank ns) (rank os)); lia. }
      assert (Hother : forall k, k <> nk ->
                dict_get k (dict_set nk v ov) = dict_get k ov
                /\ dict_get k ((nk, cm) :: items) = dict_get k items).
      { intros k Hne. rewrite dict_get_set. simpl.
        destruct (String.eqb_spec k nk); [contradiction|tauto]. }
      assert (Hself : dict_get nk ((nk, cm) :: items) = Some cm).
      { simpl. now rewrite String.eqb_refl. }
      repeat split; [lia| |].
      * destruct Hfrom as [->|(k & cm' & Hk & Hget & Hsrc)].
        -- destruct (overrides ns os); [|now left].
           right. exists nk, cm. tauto.
        -- right. exists k, cm'.
           destruct (String.eqb_spec k nk) as [->|Hne].
           ++ rewrite dict_get_set, String.eqb_refl in Hk. discriminate.
           ++ destruct (Hother k Hne) as [E1 E2]. rewrite <- E1, E2. tauto.
      * intros k cm' s Hk Hget Hsrc.
        destruct (String.eqb_spec k nk) as [->|Hne].
        -- rewrite Hself in Hget. injection Hget as <-.
           rewrite Hs in Hsrc. injection Hsrc as <-. lia.
        -- destruct (Hother k Hne) as [E1 E2]. rewrite E2 in Hget.
           apply (Hmin k cm' s); [now rewrite E1|exact Hget|exact Hsrc].
Qed.

(** The loop over the keys is one pass of the nested loop over the flat
    configs put end to end. *)
Lemma object_loop_flat (cwm : option string -> M Backend (Dict Metadata))
    (keys : list string) (ov ov' : Dict Value) (os os' : SettingValueStore)
    (w : World Backend) :
  fst (object_loop cwm keys ov os w) = Ok (ov', os') ->
  exists flats,
    fst (flat_configs cwm keys w) = Ok flats
    /\ nested_loop (concat flats) ov os = Ok (ov', os').
Proof.
  revert ov os w. induction keys as [|key keys IH]; intros ov os w Hrun;
    simpl in Hrun.
  - injection Hrun as <- <-. now exists [].
  - simpl. unfold bind in Hrun at 1. unfold bind at 1.
    destruct (cwm (Some (String.append key ".")) w) as [[flat|e] w1];
      [|discriminate].
    unfold bind in Hrun at 1. unfold lift in Hrun.
    destruct (nested_loop flat ov os) as [[ov1 os1]|e] eqn:Hflat;
      [|discriminate].
    destruct (IH _ _ _ Hrun) as (flats & Hflats & Hloop).
    exists (flat :: flats). unfold bind.
    destruct (flat_configs cwm keys w1) as [[flats'|e] w2];
      simpl in Hflats; [|discriminate].
    injection Hflats as ->. split; [reflexivity|].
    simpl. rewrite nested_loop_app, Hflat. exact Hloop.
Qed.

(** The loop over the keys, case by case: when every flat config can be
    read and the nested loop accepts them put end to end, the loop
    returns what the nested loop returns; it raises in every other
    case. *)
Lemma object_loop_run (cwm : option string -> M Backend (Dict Metadata))
    (keys : list string) (ov : Dict Value) (os : SettingValueStore)
    (w : World Backend) :
  match flat_configs cwm keys w with
  | (Ok flats, w') =>
      match nested_loop (concat flats) ov os with
      | Ok r => object_loop cwm keys ov os w = (Ok r, w')
      | Raise e => fst (object_loop cwm keys ov os w) = Raise e
      end
  | (Raise e, _) => exists e', fst (object_loop cwm keys ov os w) = Raise e'
  end.
Proof.
  revert ov os w. induction keys as [|key keys IH]; intros ov os w; simpl.
  - reflexivity.
  - unfold bind, lift, ret.
    destruct (cwm (Some (String.append key ".")) w) as [[flat|e] w1];
      [|exists e; reflexivity].
    specialize (IH).
    destruct (nested_loop flat ov os) as [[ov1 os1]|e1] eqn:Hflat.
    + specialize (IH ov1 os1 w1).
      destruct (flat_configs cwm keys w1) as [[flats|e] w2]; simpl.
      * rewrite nested_loop_app, Hflat. exact IH.
      * exact IH.
    + destruct (flat_configs cwm keys w1) as [[flats|e] w2]; simpl.
      * now rewrite nested_loop_app, Hflat.
      * now exists e1.
Qed.

(** C4, as the code has it. For every read that resolves to a definition,
    extra or not: when the definition is of kind object and the source
    after the manager's answer is [DEFAULT], the value is assembled from
    the flat configs at the prefixes [name + "."] and [alias + "."], in
    that order. When these can be read and merged, under every nested key
    stands the value of its first occurrence; the source of the object is
    [DEFAULT] or the source of one of these first occurrences, and no
    first occurrence has a source that overrides it, while an occurrence
    after the first has no part in it; the assembled mapping and its
    source replace the value and the source exactly when the mapping is
    not empty, and the cast and the redaction come after. When they cannot,
    the read raises. In every other case the manager's value goes to the
    cast as it is. *)
Theorem object_assembly_first_wins (fuel : nat) (name : string)
    (redacted : bool) (source : SettingValueStore)
    (source_manager : option Manager)
    (setting_def : option SettingDefinition.t) (w : World Backend)
    (d : SettingDefinition.t) :
  fst (resolve_setting_def name setting_def w) = Ok (Some d) ->
  let read :=
    get_with_metadata (S fuel) name redacted source source_manager
      setting_def w in
  match raw_read fuel d redacted source source_manager
          (snd (resolve_setting_def name setting_def w)) with
  | (Raise e, w1) => read = (Raise e, w1)
  | (Ok (value, metadata, source_manager'), w1) =>
      let cwm := fun prefix =>
        config_with_metadata fuel prefix None redacted source
          source_manager' in
      if String.eqb (SettingDefinition.kind d) "object"
         && source_is_default metadata
      then
        match flat_configs cwm
                (SettingDefinition.name d :: SettingDefinition.aliases d)
                w1 with
        | (Ok flats, w2) =>
            match nested_loop (concat flats) [] DEFAULT with
            | Ok (object_value, object_source) =>
                read
                = (Ok match object_value with
                      | [] => cast_then_redact d redacted value metadata
                      | _ :: _ =>
                          cast_then_redact d redacted (VDict object_value)
                            (<["source" := MStore object_source]> metadata)
                      end, w2)
                /\ (forall k,
                      dict_get k object_value
                      = nested_value (dict_get k (concat flats)))
                /\ (object_source = DEFAULT
                    \/ exists k config_metadata,
                         dict_get k (concat flats) = Some config_metadata
                         /\ config_metadata !! "source"
                            = Some (MStore object_source))
                /\ (forall k config_metadata nested_source,
                      dict_get k (concat flats) = Some config_metadata ->
                      config_metadata !! "source"
                      = Some (MStore nested_source) ->
                      overrides nested_source object_source = false)
            | Raise e => fst read = Raise e
            end
        | (Raise e, _) => exists e', fst read = Raise e'
        end
      else read = (Ok (cast_then_redact d redacted value metadata), w1)
  end.
Proof.
  intros Hres read. subst read.
  destruct (resolve_setting_def name setting_def w) as [r w0] eqn:Hrun.
  cbn [fst] in Hres. subst r. cbn [snd].
  rewrite (get_with_metadata_stages _ _ _ _ _ _ _ _ _ Hrun).
  unfold before_cast, bind.
  destruct (raw_read fuel d redacted source source_manager w0)
    as [[[[value metadata] sm']|e] w1]; [|reflexivity].
  unfold assemble_object.
  destruct (String.eqb (SettingDefinition.kind d) "object"
            && source_is_default metadata); [|reflexivity].
  unfold bind.
  match goal with
  | |- context [object_loop ?c ?ks [] DEFAULT w1] =>
      pose proof (object_loop_run c ks [] DEFAULT w1) as Hloop;
      destruct (flat_configs c ks w1) as [[flats|e] w2]
  end.
  - destruct (nested_loop (concat flats) [] DEFAULT) as [[ov os]|e] eqn:Hn.
    + rewrite Hloop.
      destruct (nested_loop_source _ _ _ _ _ Hn) as (_ & Hfrom & Hmin).
      split; [now destruct ov|]. split; [|split].
      * intros k. now rewrite (nested_loop_values _ _ _ _ _ k Hn).
      * destruct Hfrom as [->|(k & cm & _ & Hget & Hsrc)]; [now left|].
        right. now exists k, cm.
      * intros k cm s Hget Hsrc. unfold overrides. apply Nat.ltb_ge.
        now apply (Hmin k cm s).
    + match goal with
      | |- context [object_loop ?c ?ks [] DEFAULT w1] =>
          destruct (object_loop c ks [] DEFAULT w1) as [[[ov os]|e'] w3]
      end; simpl in Hloop; [discriminate|].
      simpl. congruence.
  - destruct Hloop as [e' Hloop].
    match goal with
    | |- context [object_loop ?c ?ks [] DEFAULT w1] =>
        destruct (object_loop c ks [] DEFAULT w1) as [[[ov os]|e''] w3]
    end; simpl in Hloop; [discriminate|].
    now exists e''.
Qed.

End ReadFacts.


(** ** The properties on the in-memory variant *)

(** C5, as stated, fails: the alias [b] of the second definition is the
    name of the first, which [find_setting] returns for it, while the
    canonical name of the second returns the second. *)
Lemma alias_shadowed_by_earlier_name :
  In a_def (catalog shadow_world)
  /\ In "b" (SettingDefinition.aliases a_def)
  /\ fst (find_setting "b" shadow_world) = Ok b_def
  /\ fst (find_setting (SettingDefinition.name a_def) shadow_world) = Ok a_def
  /\ b_def <> a_def.
Proof.
  split; [right; now left|]. split; [now left|].
  split; [reflexivity|]. split; [reflexivity|]. discriminate.
Qed.

Lemma find_setting_alias_witness :
  In password_def (catalog yml_alias_world)
  /\ In "pw" (SettingDefinition.aliases password_def)
  /\ fst (find_setting "pw" yml_alias_world) = Ok password_def
  /\ fst (find_setting "password" yml_alias_world) = Ok password_def.
Proof.
  assert (Hin : In password_def (catalog yml_alias_world)) by (now left).
  assert (Halias : In "pw" (SettingDefinition.aliases password_def))
    by (now left).
  assert (Hcat : catalog yml_alias_world
                 = [] ++ password_def :: List.tl (catalog yml_alias_world))
    by reflexivity.
  split; [exact Hin|]. split; [exact Halias|].
  destruct (proj1 (proj2 (find_setting_alias_resolves yml_alias_world
                            password_def "pw" Hin Halias))
              [] (List.tl (catalog yml_alias_world)) Hcat
              (fun d' (Hd' : In d' []) => match Hd' with end))
    as (Ha & Hn & _).
  split; [exact Ha|exact Hn].
Defined.

Lemma missing_setting_witness :
  fst (find_setting "nope" password_world) = Raise (SettingMissingError "nope")
  /\ fst (get_with_metadata 1 "nope" false AUTO None None password_world)
     = Ok (VNone,
           meta_update
             (<["name" := MStr "nope"]>
                (<["source" := MStore AUTO]>
                   (<["setting" := MSetting None]> ∅)))
             {["source" := MStore DEFAULT]}).
Proof.
  assert (Hmiss : fst (find_setting "nope" password_world)
                  = Raise (SettingMissingError "nope")) by reflexivity.
  split; [exact Hmiss|].
  rewrite (proj1 (proj2 (missing_setting_is_recoverable "nope" password_world))
             Hmiss 0 false AUTO None).
  reflexivity.
Defined.



Lemma as_env_entries_witness :
  fst (as_env 1 None None false AUTO None password_world)
  = Ok {["MELTANO_password" := "s3cr3t"]}
  /\ exists full_config,
       fst (config_with_metadata 1 None None false AUTO None password_world)
       = Ok full_config
       /\ stringified_from full_config "MELTANO_password" "s3cr3t".
Proof.
  assert (Hrun : fst (as_env 1 None None false AUTO None password_world)
                 = Ok {["MELTANO_password" := "s3cr3t"]})
    by (vm_compute; reflexivity).
  split; [exact Hrun|].
  destruct (as_env_entries_are_stringified 1 None None false AUTO None
              password_world _ Hrun)
    as (full_config & Hcfg & Hsound & _).
  exists full_config. split; [exact Hcfg|].
  apply Hsound. apply lookup_singleton_eq.
Defined.

(** C4, as stated, fails: the nested key [x] is given under the alias
    prefix from [ENV], which overrides [MELTANO_YML], yet the object keeps
    the value and the source of the occurrence under its name. *)
Lemma skipped_nested_source_not_promoted :
  match fst (get_with_metadata 2 "obj" false AUTO None None obj_world) with
  | Ok (v, md) => Some (v, md !! "source")
  | Raise _ => None
  end
  = Some (VDict [("x", VInt 1); ("y", VInt 2)], Some (MStore MELTANO_YML))
  /\ match fst (get_with_metadata 2 "o.x" false AUTO None None obj_world) with
     | Ok (v, md) => Some (v, md !! "source")
     | Raise _ => None
     end
     = Some (VInt 7, Some (MStore ENV))
  /\ overrides ENV MELTANO_YML = true.
Proof. vm_compute. repeat split. Qed.

Lemma object_assembly_witness :
  fst (resolve_setting_def "obj" None obj_world) = Ok (Some obj_def)
  /\ get_with_metadata 2 "obj" false AUTO None None obj_world
     = (Ok (VDict [("x", VInt 1); ("y", VInt 2)],
            <["name" := MStr "obj"]>
              (<["source" := MStore MELTANO_YML]>
                 (<["setting" := MSetting (Some obj_def)]> ∅))),
        with_cache obj_world).
Proof.
  assert (Hres : fst (resolve_setting_def "obj" None obj_world)
                 = Ok (Some obj_def))
    by (vm_compute; reflexivity).
  split; [exact Hres|].
  pose proof (object_assembly_first_wins (H1 := mem_managers) 1 "obj" false
                AUTO None None obj_world obj_def Hres) as Hasm.
  vm_compute in Hasm. destruct Hasm as [Hasm _].
  vm_compute. exact Hasm.
Defined.

(** ** [config_with_metadata] and [as_dict] *)

Lemma dict_mem_set {A} (k k' : string) (v : A) (d : Dict A) :
  dict_mem k (dict_set k' v d) = String.eqb k k' || dict_mem k d.
Proof.
  unfold dict_mem. rewrite dict_get_set.
  now destruct (String.eqb k k'), (dict_get k d).
Qed.

Lemma dict_set_In {A} (k k' : string) (v v' : A) (d : Dict A) :
  In (k, v) (dict_set k' v' d) -> (k = k' /\ v = v') \/ In (k, v) d.
Proof.
  induction d as [|[k0 v0] d IH]; simpl.
  - intros [[= <- <-]|[]]. now left.
  - destruct (String.eqb_spec k' k0) as [->|Hne]; simpl.
    + intros [[= <- <-]|Hin]; [now left|right; now right].
    + intros [Heq|Hin]; [right; now left|].
      destruct (IH Hin) as [Hl|Hr]; [now left|right; now right].
Qed.

Lemma dict_set_fresh {A} (k : string) (v : A) (d : Dict A) :
  dict_get k d = None -> dict_set k v d = d ++ [(k, v)].
Proof.
  induction d as [|[k0 v0] d IH]; simpl; [reflexivity|].
  destruct (String.eqb k k0); [discriminate|]. intros Hk. now rewrite IH.
Qed.

Lemma dict_get_keys {A} (k : string) (d : Dict A) :
  dict_get k d = None <-> ~ In k (List.map fst d).
Proof.
  induction d as [|[k0 v0] d IH]; simpl; [tauto|].
  destruct (String.eqb_spec k k0) as [->|Hne].
  - split; [discriminate|]. intros Hn. exfalso. apply Hn. now left.
  - rewrite IH. split; [intros Hn [Heq|Hin]; congruence|tauto].
Qed.

Lemma dict_set_keys {A} (k : string) (v : A) (d : Dict A) :
  List.map fst (dict_set k v d)
  = if dict_mem k d then List.map fst d else List.map fst d ++ [k].
Proof.
  unfold dict_mem. induction d as [|[k0 v0] d IH]; simpl; [reflexivity|].
  destruct (String.eqb_spec k k0) as [->|Hne]; simpl; [reflexivity|].
  rewrite IH. now destruct (dict_get k d).
Qed.

Lemma dict_set_NoDup {A} (k : string) (v : A) (d : Dict A) :
  List.NoDup (List.map fst d) -> List.NoDup (List.map fst (dict_set k v d)).
Proof.
  intros Hd. rewrite dict_set_keys. unfold dict_mem.
  destruct (dict_get k d) eqn:Hk; [exact Hd|].
  apply dict_get_keys in Hk.
  apply List.NoDup_app; [exact Hd|repeat constructor; intros []|].
  intros x Hx [<-|[]]. contradiction.
Qed.

Lemma startswith_drop (s p : string) :
  startswith s p = true ->
  String.append p (string_drop (String.length p) s) = s.
Proof.
  unfold startswith. revert s. induction p as [|c p IH]; intros s; simpl.
  - reflexivity.
  - destruct s as [|c' s]; [discriminate|].
    intros Hp. simpl in Hp.
    match type of Hp with
    | (if ?b then _ else _) = true => destruct b as [->|Hne]
    end; [|discriminate].
    change (String c' (String.append p (string_drop (String.length p) s))
            = String c' s).
    f_equal. now apply IH.
Qed.

Section ConfigFacts.
Context {Backend : Type} `{SettingDefinitionOps} `{ServiceVariant Backend}
        `{StoreManagers Backend}.

Lemma config_loop_skip (prefix : option string) (d : SettingDefinition.t) :
  str_truthy prefix
  && negb (startswith (SettingDefinition.name d) (default "" prefix))
  = negb (selected prefix d).
Proof.
  unfold selected. now destruct (str_truthy prefix), (startswith _ _).
Qed.

Lemma config_loop_key (prefix : option string) (d : SettingDefinition.t) :
  (if str_truthy prefix
   then string_drop (String.length (default "" prefix))
          (SettingDefinition.name d)
   else SettingDefinition.name d) = config_key prefix d.
Proof. reflexivity. Qed.

(** Where the entries of a finished loop come from. *)
Lemma config_loop_entries (gwm : getter) (prefix : option string)
    (redacted : bool) (source : SettingValueStore) (sm : Manager)
    (defs : list SettingDefinition.t) (config cfg : Dict Metadata)
    (w w' : World Backend) :
  config_loop gwm prefix redacted source sm defs config w = (Ok cfg, w') ->
  forall key m,
    In (key, m) cfg ->
    In (key, m) config
    \/ exists d v md w1 w2,
         In d defs /\ selected prefix d = true /\ key = config_key prefix d
         /\ gwm (SettingDefinition.name d) redacted source (Some sm) (Some d) w1
            = (Ok (v, md), w2)
         /\ m = <["value" := MVal v]> md.
Proof.
  revert config w. induction defs as [|d defs IH]; intros config w Hrun key m Hin.
  - simpl in Hrun. injection Hrun as <- <-. now left.
  - simpl in Hrun. rewrite config_loop_skip in Hrun.
    assert (Hweak : forall P : SettingDefinition.t -> Prop,
               (exists d', In d' defs /\ P d') ->
               exists d', In d' (d :: defs) /\ P d').
    { intros P (d' & Hd' & HP). exists d'. simpl. tauto. }
    destruct (selected prefix d) eqn:Hsel; simpl in Hrun.
    + unfold bind in Hrun at 1.
      destruct (gwm (SettingDefinition.name d) redacted source (Some sm)
                  (Some d) w) as [[[v md]|e] w1] eqn:Hget;
        [|discriminate].
      rewrite config_loop_key in Hrun.
      destruct (IH _ _ Hrun key m Hin)
        as [Hc|(d' & v' & md' & wa & wb & Hd' & Hrest)].
      * apply dict_set_In in Hc as [[-> ->]|Hc]; [|now left].
        right. exists d, v, md, w, w1. simpl. tauto.
      * right. exists d', v', md', wa, wb. simpl. tauto.
    + destruct (IH _ _ Hrun key m Hin)
        as [Hc|(d' & v' & md' & wa & wb & Hd' & Hrest)]; [now left|].
      right. exists d', v', md', wa, wb. simpl. tauto.
Qed.

(** The keys of a finished loop. *)
Lemma config_loop_keys (gwm : getter) (prefix : option string)
    (redacted : bool) (source : SettingValueStore) (sm : Manager)
    (defs : list SettingDefinition.t) (config cfg : Dict Metadata)
    (w w' : World Backend) (key : string) :
  config_loop gwm prefix redacted source sm defs config w = (Ok cfg, w') ->
  dict_mem key cfg = true
  <-> dict_mem key config = true
      \/ exists d, In d defs /\ selected prefix d = true
                   /\ key = config_key prefix d.
Proof.
  revert config w. induction defs as [|d defs IH]; intros config w Hrun.
  - simpl in Hrun. injection Hrun as <- <-.
    split; [now left|]. intros [Hc|(d & [] & _)]. exact Hc.
  - simpl in Hrun. rewrite config_loop_skip in Hrun.
    destruct (selected prefix d) eqn:Hsel; simpl in Hrun.
    + unfold bind in Hrun at 1.
      destruct (gwm (SettingDefinition.name d) redacted source (Some sm)
                  (Some d) w) as [[[v md]|e] w1] eqn:Hget;
        [|discriminate].
      rewrite config_loop_key in Hrun.
      rewrite (IH _ _ Hrun). rewrite dict_mem_set, orb_true_iff.
      split.
      * intros [[Hk|Hc]|(d' & Hd' & Hrest)].
        -- apply String.eqb_eq in Hk. right. exists d. simpl. tauto.
        -- now left.
        -- right. exists d'. simpl. tauto.
      * intros [Hc|(d' & [<-|Hd'] & Hs & Hk)].
        -- left. now right.
        -- left. left. subst key. apply String.eqb_refl.
        -- right. now exists d'.
    + rewrite (IH _ _ Hrun). split.
      * intros [Hc|(d' & Hd' & Hrest)]; [now left|].
        right. exists d'. simpl. tauto.
      * intros [Hc|(d' & [<-|Hd'] & Hs & Hk)]; [now left|congruence|].
        right. now exists d'.
Qed.

Lemma config_loop_NoDup (gwm : getter) (prefix : option string)
    (redacted : bool) (source : SettingValueStore) (sm : Manager)
    (defs : list SettingDefinition.t) (config cfg : Dict Metadata)
    (w w' : World Backend) :
  config_loop gwm prefix redacted source sm defs config w = (Ok cfg, w') ->
  List.NoDup (List.map fst config) -> List.NoDup (List.map fst cfg).
Proof.
  revert config w. induction defs as [|d defs IH]; intros config w Hrun Hnd.
  - simpl in Hrun. now injection Hrun as <- <-.
  - simpl in Hrun.
    destruct (str_truthy prefix && negb (startswith _ _));
      [now apply (IH _ _ Hrun)|].
    unfold bind in Hrun at 1.
    destruct (gwm _ _ _ _ _ w) as [[[v md]|e] w1]; [|discriminate].
    apply (IH _ _ Hrun). now apply dict_set_NoDup.
Qed.

(** The loop asks the getter about the selected definitions and nothing
    else. *)
Lemma config_loop_ext (gwm1 gwm2 : getter) (prefix : option string)
    (redacted : bool) (source : SettingValueStore) (sm : Manager)
    (defs : list SettingDefinition.t) :
  (forall d (w : World Backend), In d defs -> selected prefix d = true ->
               gwm1 (SettingDefinition.name d) redacted source (Some sm)
                 (Some d) w
               = gwm2 (SettingDefinition.name d) redacted source (Some sm)
                   (Some d) w) ->
  forall config (w : World Backend),
    config_loop gwm1 prefix redacted source sm defs config w
    = config_loop gwm2 prefix redacted source sm defs config w.
Proof.
  induction defs as [|d defs IH]; intros Hagree config w; [reflexivity|].
  simpl. rewrite config_loop_skip.
  assert (Hrest : forall d' w', In d' defs -> selected prefix d' = true ->
             gwm1 (SettingDefinition.name d') redacted source (Some sm)
               (Some d') w'
             = gwm2 (SettingDefinition.name d') redacted source (Some sm)
                 (Some d') w').
  { intros d' w' Hd'. apply Hagree. now right. }
  destruct (selected prefix d) eqn:Hsel; simpl; [|now apply IH].
  unfold bind. rewrite (Hagree d w (or_introl eq_refl) Hsel).
  destruct (gwm2 _ _ _ _ _ w) as [[[v md]|e] w1]; [|reflexivity].
  now apply IH.
Qed.

Lemma config_with_metadata_body_run (gwm : getter) (prefix : option string)
    (extras : option bool) (redacted : bool) (source : SettingValueStore)
    (source_manager : option Manager) (w : World Backend) :
  config_with_metadata_body gwm prefix extras redacted source source_manager w
  = config_loop gwm prefix redacted source
      (bulk_manager source source_manager)
      (select_extras extras (catalog w)) [] (with_cache w).
Proof.
  unfold config_with_metadata_body, bind. rewrite definitions_run.
  reflexivity.
Qed.

(** The keys of the result are the names of the applicable definitions,
    less the prefix; a prefix that is [None] or empty selects every
    definition and strips nothing, and prefix and key spell the name. *)
Theorem config_with_metadata_keys (fuel : nat) (prefix : option string)
    (extras : option bool) (redacted : bool) (source : SettingValueStore)
    (source_manager : option Manager) (w : World Backend)
    (cfg : Dict Metadata) :
  fst (config_with_metadata fuel prefix extras redacted source source_manager
         w) = Ok cfg ->
  (forall key,
      dict_mem key cfg = true
      <-> exists d, In d (select_extras extras (catalog w))
                    /\ selected prefix d = true
                    /\ key = config_key prefix d)
  /\ (forall d,
        str_truthy prefix = false ->
        selected prefix d = true
        /\ config_key prefix d = SettingDefinition.name d)
  /\ (forall d,
        str_truthy prefix = true ->
        selected prefix d = true ->
        String.append (default "" prefix) (config_key prefix d)
        = SettingDefinition.name d).
Proof.
  unfold config_with_metadata. rewrite config_with_metadata_body_run.
  intros Hrun.
  destruct (config_loop _ _ _ _ _ _ _ _) as [[cfg'|e] w'] eqn:Hloop;
    simpl in Hrun; [|discriminate].
  injection Hrun as ->. split; [|split].
  - intros key. rewrite (config_loop_keys _ _ _ _ _ _ _ _ _ _ key Hloop).
    split; [intros [Hc|Hd]; [discriminate|exact Hd]|now right].
  - intros d Hp. unfold selected, config_key. now rewrite Hp.
  - intros d Hp Hsel. unfold selected, config_key in *. rewrite Hp in *.
    simpl in Hsel. now apply startswith_drop.
Qed.

(** [config_with_metadata] consults the getter for the applicable
    definitions only, each under its own name, with the definition passed
    along and the manager in bulk mode: two getters that agree on these
    calls give the same result and leave the same state. *)
Theorem config_with_metadata_consults_selected (gwm1 gwm2 : getter)
    (prefix : option string) (extras : option bool) (redacted : bool)
    (source : SettingValueStore) (source_manager : option Manager)
    (w : World Backend) :
  (forall d w',
      In d (select_extras extras (catalog w)) ->
      selected prefix d = true ->
      gwm1 (SettingDefinition.name d) redacted source
        (Some (bulk_manager source source_manager)) (Some d) w'
      = gwm2 (SettingDefinition.name d) redacted source
          (Some (bulk_manager source source_manager)) (Some d) w') ->
  mgr_bulk (bulk_manager source source_manager) = true
  /\ config_with_metadata_body gwm1 prefix extras redacted source
       source_manager w
     = config_with_metadata_body gwm2 prefix extras redacted source
         source_manager w.
Proof.
  intros Hagree. split; [now destruct source_manager|].
  rewrite !config_with_metadata_body_run. now apply config_loop_ext.
Qed.

(** Every envelope of [config_with_metadata] carries the value
    [get_with_metadata] returned under [value]. *)
Lemma config_with_metadata_envelopes (fuel : nat) (prefix : option string)
    (extras : option bool) (redacted : bool) (source : SettingValueStore)
    (source_manager : option Manager) (w w' : World Backend)
    (cfg : Dict Metadata) :
  config_with_metadata fuel prefix extras redacted source source_manager w
  = (Ok cfg, w') ->
  List.NoDup (List.map fst cfg)
  /\ forall key m,
       In (key, m) cfg ->
       exists d v md w1 w2,
         In d (select_extras extras (catalog w))
         /\ selected prefix d = true /\ key = config_key prefix d
         /\ get_with_metadata fuel (SettingDefinition.name d) redacted source
              (Some (bulk_manager source source_manager)) (Some d) w1
            = (Ok (v, md), w2)
         /\ m = <["value" := MVal v]> md.
Proof.
  unfold config_with_metadata. rewrite config_with_metadata_body_run.
  intros Hloop. split.
  - apply (config_loop_NoDup _ _ _ _ _ _ _ _ _ _ Hloop). constructor.
  - intros key m Hin.
    destruct (config_loop_entries _ _ _ _ _ _ _ _ _ _ Hloop key m Hin)
      as [[]|Hd]. exact Hd.
Qed.

End ConfigFacts.

(** ** The accessors *)

Lemma envelope_values_run (items : Dict Metadata) (acc : Dict meta_val) :
  List.NoDup (List.map fst acc ++ List.map fst items) ->
  (forall key m, In (key, m) items -> exists v, m !! "value" = Some v) ->
  exists vs,
    envelope_values items acc = Ok (acc ++ vs)
    /\ List.Forall2
         (fun kv km => fst kv = fst km /\ snd km !! "value" = Some (snd kv))
         vs items.
Proof.
  revert acc. induction items as [|[key m] items IH]; intros acc Hnd Hval.
  - exists []. simpl. rewrite List.app_nil_r. split; [reflexivity|constructor].
  - destruct (Hval key m (or_introl eq_refl)) as [v Hv].
    simpl. rewrite Hv.
    assert (Hfresh : dict_get key acc = None).
    { apply dict_get_keys. simpl in Hnd. apply List.NoDup_remove_2 in Hnd.
      rewrite List.in_app_iff in Hnd. tauto. }
    rewrite (dict_set_fresh _ _ _ Hfresh).
    destruct (IH (acc ++ [(key, v)])) as (vs & Hrun & Hall).
    + rewrite List.map_app. simpl. now rewrite <- List.app_assoc.
    + intros key' m' Hin. apply (Hval key' m'). now right.
    + exists ((key, v) :: vs). rewrite Hrun, <- List.app_assoc.
      split; [reflexivity|]. constructor; [now split|exact Hall].
Qed.

Section AccessorFacts.
Context {Backend : Type} `{SettingDefinitionOps} `{ServiceVariant Backend}
        `{StoreManagers Backend}.
Variable _process_config : Dict meta_val -> M Backend (Dict meta_val).

Lemma cast_then_redact_keeps (d : SettingDefinition.t) (redacted : bool)
    (value : Value) (m : Metadata) (k : string) :
  is_Some (m !! k) -> is_Some (snd (cast_then_redact d redacted value m) !! k).
Proof.
  intros Hk. unfold cast_then_redact, cast_step, redact_step.
  destruct (negb (py_eq (cast_value d value) value)); simpl;
    match goal with
    | |- context [if ?c then _ else _] => destruct c
    end; simpl; rewrite ?lookup_insert_is_Some'; tauto.
Qed.

Lemma find_setting_found (name : string) (w : World Backend)
    (d : SettingDefinition.t) :
  fst (find_setting name w) = Ok d
  <-> List.find (matches name) (catalog w) = Some d.
Proof.
  rewrite find_setting_run. simpl.
  destruct (List.find (matches name) (catalog w)); split; congruence.
Qed.

Lemma assemble_object_keeps
    (cwm : option string -> M Backend (Dict Metadata))
    (d : SettingDefinition.t) (value v' : Value) (m m' : Metadata)
    (w w' : World Backend) (k : string) :
  assemble_object cwm d value m w = (Ok (v', m'), w') ->
  is_Some (m !! k) -> is_Some (m' !! k).
Proof.
  unfold assemble_object. intros Hrun Hk.
  destruct (String.eqb (SettingDefinition.kind d) "object"
            && source_is_default m).
  - unfold bind in Hrun.
    destruct (object_loop cwm _ [] DEFAULT w) as [[[ov os]|e] w1];
      [|discriminate].
    destruct ov; simpl in Hrun; injection Hrun as <- <- <-; [exact Hk|].
    rewrite lookup_insert_is_Some'. tauto.
  - simpl in Hrun. now injection Hrun as <- <- <-.
Qed.

(** What a successful read went through. *)
Lemma get_with_metadata_inv (fuel : nat) (name : string) (redacted : bool)
    (source : SettingValueStore) (source_manager : option Manager)
    (setting_def : option SettingDefinition.t) (w w' : World Backend)
    (v : Value) (md : Metadata) :
  get_with_metadata fuel name redacted source source_manager setting_def w
  = (Ok (v, md), w') ->
  exists sd w1,
    resolve_setting_def name setting_def w = (Ok sd, w1)
    /\ exists raw metadata,
         is_Some (metadata !! "name") /\ is_Some (metadata !! "source")
         /\ is_Some (metadata !! "setting")
         /\ match sd with
            | Some d => (v, md) = cast_then_redact d redacted raw metadata
            | None => (v, md) = (raw, metadata)
            end.
Proof.
  destruct fuel as [|fuel]; [discriminate|].
  rewrite get_with_metadata_S. unfold bind at 1.
  destruct (resolve_setting_def name setting_def w) as [[sd|e] w1];
    [|discriminate].
  intros Hrun. exists sd, w1. split; [reflexivity|].
  unfold bind at 1 in Hrun.
  match type of Hrun with
  | context [match ?x w1 with _ => _ end] =>
      destruct (x w1) as [[[env sm]|e] w2]
  end; [|discriminate].
  unfold bind at 1 in Hrun.
  destruct (manager_get _ w2 _ _ _) as [[value gm]|e]; [|discriminate].
  match type of Hrun with
  | context [meta_update ?b gm] =>
      assert (Hkeys : is_Some (meta_update b gm !! "name")
                      /\ is_Some (meta_update b gm !! "source")
                      /\ is_Some (meta_update b gm !! "setting"))
  end.
  { rewrite !base_metadata_lookup. simpl.
    destruct (gm !! "name"), (gm !! "source"), (gm !! "setting");
      repeat split; eexists; reflexivity. }
  destruct Hkeys as (Hn & Hs & Ht).
  destruct sd as [d|].
  - unfold bind in Hrun.
    match type of Hrun with
    | context [assemble_object ?c d value ?m0 w2] =>
        destruct (assemble_object c d value m0 w2) as [[[v1 m1]|e] w3] eqn:Ha
    end; [|discriminate].
    simpl in Hrun. injection Hrun as Hrun _.
    exists v1, m1. repeat split.
    + exact (assemble_object_keeps _ _ _ _ _ _ _ _ _ Ha Hn).
    + exact (assemble_object_keeps _ _ _ _ _ _ _ _ _ Ha Hs).
    + exact (assemble_object_keeps _ _ _ _ _ _ _ _ _ Ha Ht).
    + now symmetry.
  - simpl in Hrun. injection Hrun as <- <- _.
    eexists _, _. repeat split; eassumption.
Qed.

(** The metadata of a read always holds a source, so [get_with_source]
    and [get] return whenever [get_with_metadata] does, with its value,
    and raise what it raises. *)
Theorem get_returns_the_value (fuel : nat) (name : string) (redacted : bool)
    (source : SettingValueStore) (source_manager : option Manager)
    (setting_def : option SettingDefinition.t) (w : World Backend) :
  match get_with_metadata fuel name redacted source source_manager
          setting_def w with
  | (Ok (v, md), w') =>
      exists s,
        md !! "source" = Some s
        /\ get_with_source fuel name redacted source source_manager
             setting_def w = (Ok (v, s), w')
        /\ get fuel name redacted source source_manager setting_def w
           = (Ok v, w')
  | (Raise e, w') =>
      get_with_source fuel name redacted source source_manager setting_def w
      = (Raise e, w')
      /\ get fuel name redacted source source_manager setting_def w
         = (Raise e, w')
  end.
Proof.
  unfold get, get_with_source, bind.
  destruct (get_with_metadata fuel name redacted source source_manager
              setting_def w) as [[[v md]|e] w'] eqn:Hrun; [|now split].
  destruct (get_with_metadata_inv _ _ _ _ _ _ _ _ _ _ Hrun)
    as (sd & w1 & _ & raw & m & _ & Hs & _ & Hres).
  assert (Hsrc : is_Some (md !! "source")).
  { destruct sd as [d|].
    - replace md with (snd (cast_then_redact d redacted raw m))
        by now rewrite <- Hres.
      now apply cast_then_redact_keeps.
    - now injection Hres as _ ->. }
  destruct Hsrc as [s Hsrc]. exists s. rewrite Hsrc. now repeat split.
Qed.



(** [as_dict] returns the keys of [config_with_metadata] in their order,
    each with the value of its envelope; it raises nothing of its own,
    and hands this mapping to [_process_config] when asked to. *)
Theorem as_dict_strips_envelopes (fuel : nat) (prefix : option string)
    (extras : option bool) (redacted : bool) (source : SettingValueStore)
    (source_manager : option Manager) (w : World Backend) :
  match config_with_metadata fuel prefix extras redacted source
          source_manager w with
  | (Ok cfg, w') =>
      exists values,
        as_dict _process_config fuel false prefix extras redacted source
          source_manager w = (Ok values, w')
        /\ as_dict _process_config fuel true prefix extras redacted source
             source_manager w = _process_config values w'
        /\ List.Forall2
             (fun kv km =>
                fst kv = fst km
                /\ exists v, snd kv = MVal v
                             /\ snd km !! "value" = Some (MVal v))
             values cfg
  | (Raise e, w') =>
      forall process,
        as_dict _process_config fuel process prefix extras redacted source
          source_manager w = (Raise e, w')
  end.
Proof.
  unfold as_dict, bind.
  destruct (config_with_metadata fuel prefix extras redacted source
              source_manager w) as [[cfg|e] w'] eqn:Hcfg; [|reflexivity].
  destruct (config_with_metadata_envelopes _ _ _ _ _ _ _ _ _ Hcfg)
    as [Hnd Henv].
  assert (Hval : forall key m, In (key, m) cfg ->
                               exists v, m !! "value" = Some (MVal v)).
  { intros key m Hin.
    destruct (Henv key m Hin) as (d & v & md & _ & _ & _ & _ & _ & _ & ->).
    exists v. apply lookup_insert_eq. }
  destruct (envelope_values_run cfg [] Hnd) as (vs & Hrun & Hall).
  { intros key m Hin. destruct (Hval key m Hin) as [v Hv]. now exists (MVal v). }
  exists vs. unfold lift. rewrite Hrun. simpl.
  split; [reflexivity|]. split; [reflexivity|].
  clear Hrun Hnd Henv Hcfg. induction Hall as [|kv [key m] vs cfg [Hk Hv] Hall IH];
    constructor.
  - split; [exact Hk|].
    destruct (Hval key m (or_introl eq_refl)) as [v Hv'].
    exists v. simpl in *. split; congruence.
  - apply IH. intros key' m' Hin. apply (Hval key' m'). now right.
Qed.

(** Two names that resolve to the same definition read alike: the same
    value, the same metadata, the same state; the manager is asked for the
    canonical name in both cases. *)
Theorem read_by_alias_is_read_by_name (fuel : nat) (n1 n2 : string)
    (redacted : bool) (source : SettingValueStore)
    (source_manager : option Manager) (w : World Backend)
    (d : SettingDefinition.t) :
  fst (find_setting n1 w) = Ok d ->
  fst (find_setting n2 w) = Ok d ->
  get_with_metadata fuel n1 redacted source source_manager None w
  = get_with_metadata fuel n2 redacted source source_manager None w
  /\ get_with_metadata (S fuel) n1 redacted source source_manager None w
     = get_with_metadata (S fuel) (SettingDefinition.name d) redacted source
         source_manager (Some d) (with_cache w).
Proof.
  rewrite !find_setting_found. intros H1' H2'.
  assert (Hstep : forall n, List.find (matches n) (catalog w) = Some d ->
            forall fuel',
              get_with_metadata (S fuel') n redacted source source_manager
                None w
              = get_with_metadata (S fuel') (SettingDefinition.name d)
                  redacted source source_manager (Some d) (with_cache w)).
  { intros n Hn fuel'. rewrite !get_with_metadata_S. unfold bind at 1.
    rewrite resolve_setting_def_run, Hn. symmetry. unfold bind at 1.
    now rewrite resolve_setting_def_run. }
  split; [|now apply Hstep].
  destruct fuel as [|fuel]; [reflexivity|].
  now rewrite (Hstep n1 H1'), (Hstep n2 H2').
Qed.

End AccessorFacts.

(** ** What [as_env] exports, what the writes return, what is found *)

Section ExportFacts.
Context {Backend : Type} `{SettingDefinitionOps} `{ServiceVariant Backend}
        `{StoreManagers Backend}.

Lemma env_vars_loop_mono (vars : list EnvVar.t) (value : string)
    (env : gmap string string) (k : string) :
  is_Some (env !! k) -> is_Some (env_vars_loop vars value env !! k).
Proof.
  revert env. induction vars as [|ev vars IH]; intros env Hk; simpl;
    [exact Hk|].
  destruct (EnvVar.negated ev); apply IH; [exact Hk|].
  rewrite lookup_insert_is_Some'. now right.
Qed.

Lemma env_vars_loop_complete (vars : list EnvVar.t) (value : string)
    (env : gmap string string) (ev : EnvVar.t) :
  In ev vars -> EnvVar.negated ev = false ->
  is_Some (env_vars_loop vars value env !! EnvVar.key ev).
Proof.
  revert env. induction vars as [|ev' vars IH]; intros env Hin Hneg;
    [destruct Hin|].
  destruct Hin as [<-|Hin]; simpl.
  - rewrite Hneg. apply env_vars_loop_mono.
    rewrite lookup_insert_is_Some'. now left.
  - destruct (EnvVar.negated ev'); now apply IH.
Qed.

Lemma as_env_loop_complete (items : Dict Metadata)
    (env0 env : gmap string string) :
  as_env_loop items env0 = Ok env ->
  (forall k, is_Some (env0 !! k) -> is_Some (env !! k))
  /\ (forall key config value d ev,
        In (key, config) items ->
        config !! "value" = Some (MVal value) -> value <> VNone ->
        config !! "setting" = Some (MSetting (Some d)) ->
        In ev (setting_env_vars d true) -> EnvVar.negated ev = false ->
        is_Some (env !! EnvVar.key ev)).
Proof.
  revert env0. induction items as [|[key config] items IH]; intros env0 Hrun.
  - simpl in Hrun. injection Hrun as <-. split; [tauto|].
    intros key config value d ev [].
  - simpl in Hrun.
    destruct (config !! "value") as [[| |value| | |]|] eqn:Hv;
      try discriminate.
    assert (Hnone : value = VNone ->
              as_env_loop items env0 = Ok env ->
              (forall k, is_Some (env0 !! k) -> is_Some (env !! k))
              /\ (forall key' config' value' d ev,
                    In (key', config') ((key, config) :: items) ->
                    config' !! "value" = Some (MVal value') ->
                    value' <> VNone ->
                    config' !! "setting" = Some (MSetting (Some d)) ->
                    In ev (setting_env_vars d true) ->
                    EnvVar.negated ev = false ->
                    is_Some (env !! EnvVar.key ev))).
    { intros -> Hrest. destruct (IH _ Hrest) as [Hmono Hall].
      split; [exact Hmono|].
      intros key' config' value' d ev [[= <- <-]|Hin] Hv' Hnn Hs Hev Hneg.
      - congruence.
      - now apply (Hall key' config' value' d ev). }
    assert (Hsome : forall d,
              config !! "setting" = Some (MSetting (Some d)) ->
              as_env_loop items
                (env_vars_loop (setting_env_vars d true)
                   (stringify_value d value) env0) = Ok env ->
              (forall k, is_Some (env0 !! k) -> is_Some (env !! k))
              /\ (forall key' config' value' d' ev,
                    In (key', config') ((key, config) :: items) ->
                    config' !! "value" = Some (MVal value') ->
                    value' <> VNone ->
                    config' !! "setting" = Some (MSetting (Some d')) ->
                    In ev (setting_env_vars d' true) ->
                    EnvVar.negated ev = false ->
                    is_Some (env !! EnvVar.key ev))).
    { intros d Hs Hrest. destruct (IH _ Hrest) as [Hmono Hall].
      split.
      - intros k Hk. apply Hmono. now apply env_vars_loop_mono.
      - intros key' config' value' d' ev [[= <- <-]|Hin] Hv' Hnn Hs' Hev Hneg.
        + rewrite Hs in Hs'. injection Hs' as <-.
          apply Hmono. now apply env_vars_loop_complete.
        + now apply (Hall key' config' value' d' ev). }
    destruct value as [|b|z|s|l|dv]; try (now apply Hnone);
      (destruct (config !! "setting") as [[| | | |[sd|]|]|] eqn:Hs;
       try discriminate; now apply (Hsome sd)).
Qed.

(** Every setting of the configuration whose value is not [None] is
    exported: each of its variables that is not negated has an entry. *)
Theorem as_env_exports_every_value (fuel : nat) (prefix : option string)
    (extras : option bool) (redacted : bool) (source : SettingValueStore)
    (source_manager : option Manager) (w : World Backend)
    (env : gmap string string) (full_config : Dict Metadata) :
  fst (as_env fuel prefix extras redacted source source_manager w) = Ok env ->
  fst (config_with_metadata fuel prefix extras redacted source source_manager
         w) = Ok full_config ->
  forall key config value setting_def env_var,
    In (key, config) full_config ->
    config !! "value" = Some (MVal value) -> value <> VNone ->
    config !! "setting" = Some (MSetting (Some setting_def)) ->
    In env_var (setting_env_vars setting_def true) ->
    EnvVar.negated env_var = false ->
    is_Some (env !! EnvVar.key env_var).
Proof.
  unfold as_env, as_env_body, config_with_metadata, bind, lift.
  destruct (config_with_metadata_body _ _ _ _ _ _ w) as [[cfg|e] w'];
    simpl; [|discriminate].
  intros Hrun [= <-]. now apply (as_env_loop_complete _ _ _ Hrun).
Qed.

Lemma find_app {A} (f : A -> bool) (a b : list A) :
  List.find f (a ++ b)
  = match List.find f a with Some x => Some x | None => List.find f b end.
Proof.
  induction a as [|x a IH]; simpl; [reflexivity|]. now destruct (f x).
Qed.

(** On a fresh instance [find_setting] returns the first declared
    definition that is visible and matches, and looks among the
    synthesized ones only when there is none; with [show_hidden] off a
    declared definition of kind hidden is never returned. *)
Theorem find_setting_prefers_declared (name : string) (w : World Backend) :
  _setting_defs (self w) = None ->
  let visible :=
    List.filter
      (fun s => negb (String.eqb (SettingDefinition.kind s) "hidden")
                || show_hidden (self w))
      (_definitions (backend w)) in
  let synthesized :=
    from_missing (_definitions (backend w))
      (flat_meltano_yml_config (backend w)) in
  fst (find_setting name w)
  = match List.find (matches name) visible with
    | Some d => Ok d
    | None =>
        match List.find (matches name) synthesized with
        | Some d => Ok d
        | None => Raise (SettingMissingError name)
        end
    end
  /\ (forall d,
        fst (find_setting name w) = Ok d ->
        show_hidden (self w) = false ->
        SettingDefinition.kind d = "hidden" ->
        In d synthesized).
Proof.
  intros Hfresh visible synthesized.
  assert (Hcat : catalog w = visible ++ synthesized).
  { unfold catalog. now rewrite Hfresh. }
  assert (Hrun : fst (find_setting name w)
                 = match List.find (matches name) (visible ++ synthesized) with
                   | Some d => Ok d
                   | None => Raise (SettingMissingError name)
                   end).
  { rewrite find_setting_run, Hcat. simpl.
    now destruct (List.find (matches name) (visible ++ synthesized)). }
  split.
  - rewrite Hrun, find_app. now destruct (List.find (matches name) visible).
  - intros d Hd Hshow Hkind. rewrite Hrun in Hd.
    destruct (List.find (matches name) (visible ++ synthesized)) as [d'|] eqn:F;
      [|discriminate].
    injection Hd as ->. apply List.find_some in F as [Hin _].
    apply List.in_app_iff in Hin as [Hv|Hs]; [|exact Hs].
    apply List.filter_In in Hv as [_ Hv].
    rewrite Hshow, Hkind in Hv. discriminate.
Qed.

(** A write of a value other than the sentinel returns the value the
    manager was given, which is the cast one, and raises what the manager
    raises and nothing else: a name without a definition is written as it
    is. [unset] and [reset] return their envelope under the manager's
    metadata in the same way. *)
Theorem writes_return_what_was_written (path : PathArg) (value : Value)
    (store : option SettingValueStore) (w : World Backend) :
  py_eq value (VStr REDACTED_VALUE) = false ->
  let segments := path_segments path in
  let name := String.concat "." segments in
  let setting_def := List.find (matches name) (catalog w) in
  let target := manager (default AUTO store) false in
  let envelope : Metadata :=
    <["name" := MStr name]>
      (<["path" := MPath segments]>
         (<["store" := MStore (default AUTO store)]>
            (<["setting" := MSetting setting_def]> ∅))) in
  let written :=
    match setting_def with
    | Some d => cast_step d value envelope
    | None => (value, envelope)
    end in
  fst (set_with_metadata path value store w)
  = match fst (manager_set target (with_cache w) name segments (fst written)
                 setting_def) with
    | Ok set_metadata =>
        Ok (fst written, meta_update (snd written) set_metadata)
    | Raise e => Raise e
    end
  /\ fst (set path value store w)
     = match fst (manager_set target (with_cache w) name segments
                    (fst written) setting_def) with
       | Ok _ => Ok (fst written)
       | Raise e => Raise e
       end
  /\ fst (unset path store w)
     = match fst (manager_unset target (with_cache w) name segments
                    setting_def) with
       | Ok unset_metadata => Ok (meta_update envelope unset_metadata)
       | Raise e => Raise e
       end
  /\ fst (reset store w)
     = match fst (manager_reset target w) with
       | Ok reset_metadata =>
           Ok (meta_update (<["store" := MStore (default AUTO store)]> ∅)
                 reset_metadata)
       | Raise e => Raise e
       end.
Proof.
  intros Hne. cbv zeta.
  unfold set, set_with_metadata, unset, reset, bind, manager_write.
  rewrite !resolve_setting_def_run. simpl. rewrite Hne.
  destruct (List.find _ (catalog w)) as [d|]; simpl.
  - destruct (cast_step d value _) as [v' m'] eqn:Hcast. simpl.
    repeat split.
    + now destruct (manager_set _ _ _ _ _ _) as [[md|e] b].
    + now destruct (manager_set _ _ _ _ _ _) as [[md|e] b].
    + now destruct (manager_unset _ _ _ _ _) as [[md|e] b].
    + now destruct (manager_reset _ _) as [[md|e] b].
  - repeat split.
    + now destruct (manager_set _ _ _ _ _ _) as [[md|e] b].
    + now destruct (manager_set _ _ _ _ _ _) as [[md|e] b].
    + now destruct (manager_unset _ _ _ _ _) as [[md|e] b].
    + now destruct (manager_reset _ _) as [[md|e] b].
Qed.

End ExportFacts.

(** ** The accessors on the in-memory variant *)

Lemma config_with_metadata_keys_witness :
  fst (config_with_metadata 1 (Some "pass") None false AUTO None
         password_world)
  = Ok [("word", password_envelope (VStr "s3cr3t") false)]
  /\ String.append "pass" (config_key (Some "pass") password_def)
     = "password".
Proof.
  assert (Hrun : fst (config_with_metadata 1 (Some "pass") None false AUTO
                        None password_world)
                 = Ok [("word", password_envelope (VStr "s3cr3t") false)])
    by (vm_compute; reflexivity).
  split; [exact Hrun|].
  exact (proj2 (proj2 (config_with_metadata_keys 1 (Some "pass") None false
                         AUTO None password_world _ Hrun))
           password_def eq_refl eq_refl).
Defined.

Lemma config_with_metadata_consults_witness :
  config_with_metadata_body (get_with_metadata 1) None None false AUTO None
    password_world
  = config_with_metadata_body password_only_getter None None false AUTO None
      password_world.
Proof.
  refine (proj2 (config_with_metadata_consults_selected (get_with_metadata 1)
                   password_only_getter None None false AUTO None
                   password_world _)).
  intros d w' Hd _. destruct Hd as [<-|[]]. reflexivity.
Defined.



Lemma read_by_alias_witness :
  fst (find_setting "pw" password_world) = Ok password_def
  /\ fst (find_setting "password" password_world) = Ok password_def
  /\ get_with_metadata 1 "pw" false AUTO None None password_world
     = get_with_metadata 1 "password" false AUTO None None password_world.
Proof.
  split; [reflexivity|]. split; [reflexivity|].
  exact (proj1 (read_by_alias_is_read_by_name 1 "pw" "password" false AUTO
                  None password_world password_def eq_refl eq_refl)).
Defined.

Lemma as_env_exports_witness :
  fst (as_env 1 None None false AUTO None password_world)
  = Ok {["MELTANO_password" := "s3cr3t"]}
  /\ fst (config_with_metadata 1 None None false AUTO None password_world)
     = Ok [("password", password_envelope (VStr "s3cr3t") false)]
  /\ is_Some (({["MELTANO_password" := "s3cr3t"]} : gmap string string)
              !! "MELTANO_password").
Proof.
  assert (Hrun : fst (as_env 1 None None false AUTO None password_world)
                 = Ok {["MELTANO_password" := "s3cr3t"]})
    by (vm_compute; reflexivity).
  assert (Hcfg : fst (config_with_metadata 1 None None false AUTO None
                        password_world)
                 = Ok [("password", password_envelope (VStr "s3cr3t") false)])
    by (vm_compute; reflexivity).
  split; [exact Hrun|]. split; [exact Hcfg|].
  apply (as_env_exports_every_value 1 None None false AUTO None
           password_world _ _ Hrun Hcfg "password"
           (password_envelope (VStr "s3cr3t") false) (VStr "s3cr3t")
           password_def
           {| EnvVar.key := "MELTANO_password"; EnvVar.negated := false |}).
  - now left.
  - vm_compute. reflexivity.
  - discriminate.
  - vm_compute. reflexivity.
  - now left.
  - reflexivity.
Defined.

Lemma find_setting_prefers_declared_witness :
  _setting_defs (self password_world) = None
  /\ fst (find_setting "pw" password_world) = Ok password_def.
Proof.
  split; [reflexivity|].
  exact (proj1 (find_setting_prefers_declared "pw" password_world eq_refl)).
Defined.

Lemma writes_return_witness :
  py_eq (VStr "yes") (VStr REDACTED_VALUE) = false
  /\ fst (set (PathStr "flag") (VStr "yes") (Some DB) flag_world)
     = Ok (VBool true).
Proof.
  split; [reflexivity|].
  exact (proj1 (proj2 (writes_return_what_was_written (PathStr "flag")
                         (VStr "yes") (Some DB) flag_world eq_refl))).
Defined.

(** ** Extra settings and redaction *)

Section ExpansionFacts.
Context {Backend : Type} `{SettingDefinitionOps} `{ServiceVariant Backend}
        `{StoreManagers Backend}.


(** For a definition that is neither extra nor of kind object, a read with
    redaction differs from the plain read in one case only: the definition
    is redacted and the plain value is truthy; the value is then the
    sentinel and the metadata the plain one with [redacted] set. Both
    reads raise alike. *)
Theorem redaction_only_masks (fuel : nat) (name : string)
    (source : SettingValueStore) (source_manager : option Manager)
    (d : SettingDefinition.t) (w : World Backend) :
  SettingDefinition.is_extra d = false ->
  String.eqb (SettingDefinition.kind d) "object" = false ->
  match fst (get_with_metadata (S fuel) name false source source_manager
               (Some d) w),
        fst (get_with_metadata (S fuel) name true source source_manager
               (Some d) w) with
  | Ok (v, md), Ok (v', md') =>
      (v', md') = (v, md)
      \/ (SettingDefinition.is_redacted d = true /\ truthy v = true
          /\ v' = VStr REDACTED_VALUE
          /\ md' = <["redacted" := MBool true]> md)
  | Raise e, Raise e' => e = e'
  | _, _ => False
  end.
Proof.
  intros Hx Hk. rewrite !get_with_metadata_step by exact Hx.
  destruct (manager_get _ w _ _ _) as [[raw gm]|e]; [|reflexivity].
  unfold assemble_object. rewrite Hk. simpl.
  unfold cast_then_redact, cast_step, redact_step.
  destruct (negb (py_eq (cast_value d raw) raw)); simpl;
    match goal with
    | |- context [truthy ?x] => destruct (truthy x) eqn:Ht
    end; simpl;
    destruct (SettingDefinition.is_redacted d); simpl; tauto.
Qed.

End ExpansionFacts.


Lemma redaction_only_masks_witness :
  SettingDefinition.is_extra password_def = false
  /\ String.eqb (SettingDefinition.kind password_def) "object" = false
  /\ ((VStr REDACTED_VALUE, password_metadata true)
      = (VStr "s3cr3t", password_metadata false)
      \/ (SettingDefinition.is_redacted password_def = true
          /\ truthy (VStr "s3cr3t") = true
          /\ VStr REDACTED_VALUE = VStr REDACTED_VALUE
          /\ password_metadata true
             = <["redacted" := MBool true]> (password_metadata false))).
Proof.
  split; [reflexivity|]. split; [reflexivity|].
  pose proof (redaction_only_masks (H1 := mem_managers) 0 "password" AUTO
                None password_def password_world eq_refl eq_refl) as Hmask.
  vm_compute in Hmask. vm_compute. exact Hmask.
Defined.
